(** * Waxy-Timer: the activity-attribution core of [main_v1_0_2.py]

    A shallow embedding of the timer model ([ActivityTimer]), the hit tester
    ([hwnd_is_target_or_child]), the global input hooks
    ([InputHookController._run]) and the target selection of the main window
    ([MainWindow._refresh_windows], [MainWindow._select_best_default_target]),
    followed by the window enumeration ([list_target_windows] and its
    filters), the time formatting and the UI tick with its threshold sound
    ([_format_time], [_tick_ui]), the volume handlers and the saved window
    hint.

    Conventions of the embedding:
    - a window handle (HWND) is an integer, [Z]; Python's truthiness test
      [not hwnd] is [hwnd =? 0];
    - a value of [time.time()] is a rational number of seconds, [Q]: the
      arithmetic of the timer is exact, binary64 rounding is not modelled;
    - the instant read by [time.time()] inside a method is an explicit
      argument [now] of the method;
    - every method of [ActivityTimer] takes the lock for its whole access to
      the timestamp, so each method is one atomic state transformer;
    - a [win32gui] query answers with a value or raises; the window manager
      is a record of such answers, and the unbounded parent walk of the hit
      tester is given fuel;
    - a window title is a [string]; [str.lower] is a parameter of the
      selection code, instantiated by ASCII lowercasing in the examples;
    - of the [QComboBox] only the items and the current index are kept, with
      the [currentIndexChanged] signal that runs [_on_target_changed]. *)

From Stdlib Require Import ZArith QArith Qminmax Bool List String Ascii Lia Lqa.
From Stdlib Require Import Sorted Permutation.
From Stdlib Require Import NArith Qround Qabs.
From Stdlib Require Import Decimal DecimalString DecimalPos DecimalN DecimalZ.
Import ListNotations.

Local Open Scope Z_scope.

(** ** Timer model *)

Module Timer.

(** [TimerConfig] (a dataclass). *)
Record TimerConfig := mkTimerConfig {
  length_seconds : Z;
  threshold_seconds : Z;
  count_below_zero : bool;
  sound_threshold_seconds : Z;
  sound_file_rel : string;
  volume : Q
}.

Definition DEFAULT_SOUND_THRESHOLD : Z := 15.
Definition DEFAULT_VOLUME : Q := (1 # 2)%Q.

Definition default_config : TimerConfig :=
  {| length_seconds := 90;
     threshold_seconds := 15;
     count_below_zero := true;
     sound_threshold_seconds := DEFAULT_SOUND_THRESHOLD;
     sound_file_rel := EmptyString;
     volume := DEFAULT_VOLUME |}.

(** The fields of an [ActivityTimer] object ([_lock] carries no data). *)
Record ActivityTimer := mkActivityTimer {
  config : TimerConfig;
  target_hwnd : Z;
  _last_activity_ts : Q
}.

(** [ActivityTimer.__init__], run at instant [now]. *)
Definition init (now : Q) : ActivityTimer :=
  {| config := default_config; target_hwnd := 0; _last_activity_ts := now |}.

(** [self.target_hwnd = int(hwnd) if hwnd else 0] *)
Definition set_target_hwnd (self : ActivityTimer) (hwnd : Z) : ActivityTimer :=
  {| config := config self;
     target_hwnd := if hwnd =? 0 then 0 else hwnd;
     _last_activity_ts := _last_activity_ts self |}.

(** [with self._lock: self._last_activity_ts = time.time()] *)
Definition reset_to_full (self : ActivityTimer) (now : Q) : ActivityTimer :=
  {| config := config self;
     target_hwnd := target_hwnd self;
     _last_activity_ts := now |}.

(** [with self._lock: self._last_activity_ts = time.time()] *)
Definition note_activity (self : ActivityTimer) (now : Q) : ActivityTimer :=
  {| config := config self;
     target_hwnd := target_hwnd self;
     _last_activity_ts := now |}.

(** Python's two-argument [max(a, b)]: [b] when [b > a], else [a]. *)
Definition py_max (a b : Q) : Q := if Qle_bool b a then a else b.

(** [remaining_seconds]: the value returned and the object afterwards. *)
Definition remaining_seconds (self : ActivityTimer) (now : Q)
  : Q * ActivityTimer :=
  let elapsed := (now - _last_activity_ts self)%Q in
  let remaining := (inject_Z (length_seconds (config self)) - elapsed)%Q in
  let remaining :=
    if negb (count_below_zero (config self))
    then py_max 0%Q remaining
    else remaining in
  (remaining, self).

(** [self.timer_model.config.count_below_zero = b], the assignment made by
    [MainWindow._on_below_zero_changed]. *)
Definition set_count_below_zero (self : ActivityTimer) (b : bool)
  : ActivityTimer :=
  {| config :=
       {| length_seconds := length_seconds (config self);
          threshold_seconds := threshold_seconds (config self);
          count_below_zero := b;
          sound_threshold_seconds := sound_threshold_seconds (config self);
          sound_file_rel := sound_file_rel (config self);
          volume := volume (config self) |};
     target_hwnd := target_hwnd self;
     _last_activity_ts := _last_activity_ts self |}.

End Timer.

(** ** The Win32 queries used by the hit tester and the hooks *)

Module Win32.

(** The outcome of a call into [win32gui]: a value, or a Python exception. *)
Inductive PyResult (A : Type) : Type :=
| Returns (a : A)
| Raises.
Arguments Returns {A} a.
Arguments Raises {A}.

(** The window-manager state seen by one event handler: what each query
    answers while the handler runs. *)
Record Desktop := mkDesktop {
  GetParent : Z -> PyResult Z;
  GetAncestor : Z -> Z -> PyResult Z;
  WindowFromPoint : Z * Z -> PyResult Z;
  GetForegroundWindow : PyResult Z
}.

Definition GA_ROOT : Z := 2.

(** [get_foreground_window()] *)
Definition get_foreground_window (os : Desktop) : PyResult Z :=
  GetForegroundWindow os.

(** How the [while cur:] loop of [hwnd_is_target_or_child] is left. *)
Inductive WalkExit := FoundTarget | LeftLoop.

(** The loop
[[
    while cur:
        try:    cur = win32gui.GetParent(cur)
        except Exception: break
        if cur == target_hwnd: return True
]]
    [fuel] bounds the number of iterations; [None] is fuel exhausted. *)
Fixpoint parent_walk (os : Desktop) (fuel : nat) (cur target_hwnd : Z)
  : option WalkExit :=
  if cur =? 0 then Some LeftLoop
  else
    match fuel with
    | O => None
    | S fuel' =>
        match GetParent os cur with
        | Raises => Some LeftLoop
        | Returns cur' =>
            if cur' =? target_hwnd then Some FoundTarget
            else parent_walk os fuel' cur' target_hwnd
        end
    end.

(** The final [try] block: both root ancestors are queried, the clicked
    window's first; an exception in either makes the comparison fail. *)
Definition roots_match (os : Desktop) (clicked_hwnd target_hwnd : Z) : bool :=
  match GetAncestor os clicked_hwnd GA_ROOT with
  | Raises => false
  | Returns clicked_root =>
      match GetAncestor os target_hwnd GA_ROOT with
      | Raises => false
      | Returns target_root =>
          negb (clicked_root =? 0) && negb (target_root =? 0)
          && (clicked_root =? target_root)
      end
  end.

Definition hwnd_is_target_or_child
  (os : Desktop) (fuel : nat) (clicked_hwnd target_hwnd : Z) : option bool :=
  if (clicked_hwnd =? 0) || (target_hwnd =? 0) then Some false
  else if clicked_hwnd =? target_hwnd then Some true
  else
    match parent_walk os fuel clicked_hwnd target_hwnd with
    | None => None
    | Some FoundTarget => Some true
    | Some LeftLoop => Some (roots_match os clicked_hwnd target_hwnd)
    end.

(** *** The hit tester as the specification words it *)

(** [target] is met on the parent chain of [c]: the chain runs through
    nonzero windows whose parent query succeeds. *)
Inductive on_parent_chain (os : Desktop) (target : Z) : Z -> Prop :=
| chain_parent (c : Z) :
    c <> 0 -> GetParent os c = Returns target -> on_parent_chain os target c
| chain_above (c p : Z) :
    c <> 0 -> GetParent os c = Returns p ->
    on_parent_chain os target p -> on_parent_chain os target c.

(** Both root ancestors resolve, to the same nonzero window. *)
Definition same_root (os : Desktop) (c target : Z) : Prop :=
  exists r : Z,
    GetAncestor os c GA_ROOT = Returns r
    /\ GetAncestor os target GA_ROOT = Returns r
    /\ r <> 0.

(** Steps 2 to 4 of the specified algorithm, for a clicked window [c]. *)
Definition belongsToTarget_spec (os : Desktop) (c target : Z) : Prop :=
  c = target \/ on_parent_chain os target c \/ same_root os c target.

(** The parent chain of [c] is finite: it reaches the root (a zero parent)
    or a failing query. *)
Inductive chain_ends (os : Desktop) : Z -> Prop :=
| ends_at_root : chain_ends os 0
| ends_on_failure (c : Z) : GetParent os c = Raises -> chain_ends os c
| ends_above (c p : Z) :
    GetParent os c = Returns p -> chain_ends os p -> chain_ends os c.

End Win32.

(** ** Global hooks *)

Module Hooks.
Import Timer Win32.

(** The timer owned by the controller, with a ghost log of the instants at
    which a hook called [self.timer.note_activity()], latest first. *)
Record HookState := mkHookState {
  timer : ActivityTimer;
  activity_log : list Q
}.

(** [self.timer.note_activity()] issued by a hook at instant [now]. *)
Definition call_note_activity (st : HookState) (now : Q) : HookState :=
  {| timer := note_activity (timer st) now;
     activity_log := now :: activity_log st |}.

(** How a callback ends: it returns, or an exception leaves it. *)
Inductive Completion := Returned | Propagated.

(** [on_key_press(_key)] *)
Definition on_key_press (os : Desktop) (now : Q) (_key : Z) (st : HookState)
  : Completion * HookState :=
  let target := target_hwnd (timer st) in
  if target =? 0 then (Returned, st)
  else
    match get_foreground_window os with
    | Raises => (Propagated, st)
    | Returns fg =>
        if fg =? target then (Returned, call_note_activity st now)
        else (Returned, st)
    end.

(** [on_click(x, y, _button, pressed)]; [None] is fuel exhausted in the
    parent walk. *)
Definition on_click (os : Desktop) (fuel : nat) (now : Q)
  (x y _button : Z) (pressed : bool) (st : HookState)
  : option (Completion * HookState) :=
  if negb pressed then Some (Returned, st)
  else
    let target := target_hwnd (timer st) in
    if target =? 0 then Some (Returned, st)
    else
      match WindowFromPoint os (x, y) with
      | Raises => Some (Returned, st)
      | Returns clicked_hwnd =>
          match hwnd_is_target_or_child os fuel clicked_hwnd target with
          | None => None
          | Some true => Some (Returned, call_note_activity st now)
          | Some false => Some (Returned, st)
          end
      end.

(** The events for which [_run] registers a callback. *)
Inductive InputEvent :=
| KeyPress (key : Z)
| MouseButton (x y button : Z) (pressed : bool).

(** One event as it reaches its callback: the desktop and the instant at
    which the callback runs. *)
Record Delivery := mkDelivery {
  desktop : Desktop;
  instant : Q;
  event : InputEvent
}.

Definition dispatch (fuel : nat) (d : Delivery) (st : HookState)
  : option (Completion * HookState) :=
  match event d with
  | KeyPress key => Some (on_key_press (desktop d) (instant d) key st)
  | MouseButton x y button pressed =>
      on_click (desktop d) fuel (instant d) x y button pressed st
  end.

(** What happens to the shared timer while the listeners run: an event is
    delivered to its callback, or the control context stores a target with
    [set_target_hwnd]. *)
Inductive Step :=
| Input (d : Delivery)
| SetTargetHwnd (hwnd : Z).

(** A sequence of steps, the state threaded through them.  A callback that
    an exception leaves has changed nothing; the later steps are still run,
    which covers both listeners whatever the listener library does after
    such a callback. *)
Fixpoint run (fuel : nat) (steps : list Step) (st : HookState)
  : option HookState :=
  match steps with
  | [] => Some st
  | Input d :: steps' =>
      match dispatch fuel d st with
      | None => None
      | Some (_, st') => run fuel steps' st'
      end
  | SetTargetHwnd hwnd :: steps' =>
      run fuel steps'
        {| timer := set_target_hwnd (timer st) hwnd;
           activity_log := activity_log st |}
  end.

End Hooks.

(** ** Target selection of the main window *)

Module Strings.

(** Python's [needle in hay] on strings. *)
Fixpoint contains (needle hay : string) : bool :=
  if prefix needle hay then true
  else
    match hay with
    | EmptyString => false
    | String _ rest => contains needle rest
    end.

(** [any(b in title for b in brands)] *)
Definition any_contained (brands : list string) (title : string) : bool :=
  existsb (fun b => contains b title) brands.

(** [str.lower] on ASCII text, used for the worked examples. *)
Definition ascii_lower_char (c : ascii) : ascii :=
  let n := nat_of_ascii c in
  if (65 <=? n)%nat && (n <=? 90)%nat then ascii_of_nat (n + 32) else c.

Fixpoint ascii_lower (s : string) : string :=
  match s with
  | EmptyString => EmptyString
  | String c rest => String (ascii_lower_char c) (ascii_lower rest)
  end.

End Strings.

Module Combo.

(** The part of a [QComboBox] the selection code reads and writes: the
    items (text, user data) and the current index, [None] for Qt's [-1]. *)
Record QComboBox := mkQComboBox {
  items : list (string * Z);
  currentIndex : option nat
}.

Definition count (c : QComboBox) : nat := List.length (items c).

Definition itemText (c : QComboBox) (i : nat) : string :=
  match nth_error (items c) i with
  | Some (text, _) => text
  | None => EmptyString
  end.

Definition itemData (c : QComboBox) (i : nat) : option Z :=
  match nth_error (items c) i with
  | Some (_, data) => Some data
  | None => None
  end.

Definition currentData (c : QComboBox) : option Z :=
  match currentIndex c with
  | Some i => itemData c i
  | None => None
  end.

Definition clear (c : QComboBox) : QComboBox :=
  {| items := []; currentIndex := None |}.

(** [addItem(text, userData)]: the item is appended; the first item of an
    empty box becomes the current one. *)
Definition addItem (c : QComboBox) (text : string) (data : Z) : QComboBox :=
  {| items := items c ++ [(text, data)];
     currentIndex :=
       match items c, currentIndex c with
       | [], None => Some 0%nat
       | _, idx => idx
       end |}.

Definition setCurrentIndex (c : QComboBox) (i : nat) : QComboBox :=
  {| items := items c;
     currentIndex := if (i <? count c)%nat then Some i else None |}.

End Combo.

Module Selection.
Import Timer Strings Combo.

(** [for i in range(n): if p(i): ...; break] -- the first index below [n]
    at which [p] holds, searched upwards from [i]. *)
Fixpoint first_index_from (p : nat -> bool) (i n : nat) : option nat :=
  match n with
  | O => None
  | S n' => if p i then Some i else first_index_from p (S i) n'
  end.

Definition first_index (p : nat -> bool) (n : nat) : option nat :=
  first_index_from p 0 n.

Definition MARKER : string := "2004scape game".

Definition BROWSER_BRANDS : list string :=
  ["chrome"; "edge"; "firefox"; "brave"; "opera"; "vivaldi"]%string.

(** The test of the first loop of [_select_best_default_target], on a
    lowercased title. *)
Definition native_game_title (title : string) : bool :=
  contains MARKER title && negb (any_contained BROWSER_BRANDS title).

(** [int(d) if d else 0] for the user data [d] of the current item. *)
Definition data_or_zero (d : option Z) : Z :=
  match d with
  | Some h => if h =? 0 then 0 else h
  | None => 0
  end.

(** The fields of [MainWindow] that target selection touches.
    [_preferred_window_hint] is [None] while the attribute is not set;
    [target_changed_connected] tells whether [_on_target_changed] is
    connected to [window_combo.currentIndexChanged]. *)
Record MainWindow := mkMainWindow {
  window_combo : QComboBox;
  timer_model : ActivityTimer;
  _preferred_window_hint : option string;
  target_changed_connected : bool;
  _sound_fired : bool
}.

Definition with_combo (self : MainWindow) (c : QComboBox) : MainWindow :=
  {| window_combo := c;
     timer_model := timer_model self;
     _preferred_window_hint := _preferred_window_hint self;
     target_changed_connected := target_changed_connected self;
     _sound_fired := _sound_fired self |}.

Definition with_timer (self : MainWindow) (t : ActivityTimer) : MainWindow :=
  {| window_combo := window_combo self;
     timer_model := t;
     _preferred_window_hint := _preferred_window_hint self;
     target_changed_connected := target_changed_connected self;
     _sound_fired := _sound_fired self |}.

(** [self._sound_fired = False] *)
Definition _rearm_sound (self : MainWindow) : MainWindow :=
  {| window_combo := window_combo self;
     timer_model := timer_model self;
     _preferred_window_hint := _preferred_window_hint self;
     target_changed_connected := target_changed_connected self;
     _sound_fired := false |}.

(** [_on_target_changed(_idx)], run at instant [now]. *)
Definition _on_target_changed (self : MainWindow) (now : Q) : MainWindow :=
  let hwnd := data_or_zero (currentData (window_combo self)) in
  let self := with_timer self (set_target_hwnd (timer_model self) hwnd) in
  let self := with_timer self (reset_to_full (timer_model self) now) in
  _rearm_sound self.

Definition same_index (a b : option nat) : bool :=
  match a, b with
  | Some i, Some j => (i =? j)%nat
  | None, None => true
  | _, _ => false
  end.

(** [self.window_combo.setCurrentIndex(i)] with signals not blocked: when
    the current index changes, Qt emits [currentIndexChanged], which runs
    [_on_target_changed] if it is connected. *)
Definition window_combo_setCurrentIndex
  (self : MainWindow) (now : Q) (i : nat) : MainWindow :=
  let before := currentIndex (window_combo self) in
  let self := with_combo self (setCurrentIndex (window_combo self) i) in
  if negb (same_index before (currentIndex (window_combo self)))
     && target_changed_connected self
  then _on_target_changed self now
  else self.

(** [clear()] followed by one [addItem(title, int(hwnd))] per pair
    (handle, title) of [windows], in order; signals are blocked meanwhile. *)
Definition refilled (c : QComboBox) (windows : list (Z * string)) : QComboBox :=
  fold_left (fun c w => addItem c (snd w) (fst w)) windows (clear c).

(** [currentIndexChanged.disconnect()] (its exception swallowed) followed
    by [currentIndexChanged.connect(self._on_target_changed)]. *)
Definition reconnect_target_changed (self : MainWindow) : MainWindow :=
  {| window_combo := window_combo self;
     timer_model := timer_model self;
     _preferred_window_hint := _preferred_window_hint self;
     target_changed_connected := true;
     _sound_fired := _sound_fired self |}.

Section WithLower.

(** [str.lower]. *)
Variable lower : string -> string.

(** [_select_best_default_target], [now] being the instant read if the
    index change runs [_on_target_changed]. *)
Definition _select_best_default_target (self : MainWindow) (now : Q)
  : MainWindow :=
  let combo := window_combo self in
  if (count combo =? 0)%nat then
    with_timer self (set_target_hwnd (timer_model self) 0)
  else
    let best_idx :=
      first_index
        (fun i => native_game_title (lower (itemText combo i)))
        (count combo) in
    let hint :=
      match _preferred_window_hint self with
      | Some h => h
      | None => EmptyString
      end in
    let best_idx :=
      match best_idx with
      | None =>
          if negb (String.eqb hint EmptyString) then
            first_index
              (fun i =>
                 negb (String.eqb hint EmptyString)
                 && contains hint (lower (itemText combo i)))
              (count combo)
          else None
      | Some i => Some i
      end in
    let best_idx :=
      match best_idx with
      | None =>
          first_index
            (fun i => contains MARKER (lower (itemText combo i)))
            (count combo)
      | Some i => Some i
      end in
    let best_idx :=
      match best_idx with
      | None => 0%nat
      | Some i => i
      end in
    let self := window_combo_setCurrentIndex self now best_idx in
    let hwnd := data_or_zero (currentData (window_combo self)) in
    with_timer self (set_target_hwnd (timer_model self) hwnd).

(** [_refresh_windows], [windows] being what [list_target_windows()]
    returns: pairs (handle, title). *)
Definition _refresh_windows
  (self : MainWindow) (now : Q) (windows : list (Z * string)) : MainWindow :=
  let current_hwnd := data_or_zero (currentData (window_combo self)) in
  let self := with_combo self (refilled (window_combo self) windows) in
  let self := reconnect_target_changed self in
  let combo := window_combo self in
  let found :=
    if current_hwnd =? 0 then None
    else
      first_index
        (fun i =>
           match itemData combo i with
           | Some d => d =? current_hwnd
           | None => false
           end)
        (count combo) in
  match found with
  | Some i =>
      let self := window_combo_setCurrentIndex self now i in
      with_timer self (set_target_hwnd (timer_model self) current_hwnd)
  | None => _select_best_default_target self now
  end.

(** The target the resolver settles on. *)
Definition resolved_target (self : MainWindow) : Z :=
  target_hwnd (timer_model self).

(** The selection before the refresh, zero when there is none. *)
Definition previous_handle (self : MainWindow) : Z :=
  data_or_zero (currentData (window_combo self)).

(** A listed window whose lowercased title has the marker and no browser
    brand. *)
Definition native_game_window (w : Z * string) : bool :=
  native_game_title (lower (snd w)).

(** What rule 1 of the specified priority order asks of a refresh. *)
Definition selects_native_game_window
  (self : MainWindow) (now : Q) (windows : list (Z * string)) : Prop :=
  exists w : Z * string,
    In w windows /\ native_game_window w = true
    /\ resolved_target (_refresh_windows self now windows) = fst w.

End WithLower.

End Selection.

(** ** A small desktop for worked examples *)

Module Examples.
Import Timer Win32 Hooks Strings Combo Selection.

(** The game window 100 with a child 101 and a grandchild 102; a render
    surface 300 that has no parent but the game window as root ancestor; an
    unrelated top-level window 200.  Queries on any other handle raise.
    The point (10, 10) lies on 102, (500, 500) on 200, (20, 20) on 300; the
    point query raises elsewhere.  Window 100 has the focus. *)
Definition sample_desktop : Desktop :=
  {| GetParent := fun h =>
       if h =? 102 then Returns 101
       else if h =? 101 then Returns 100
       else if (h =? 100) || (h =? 200) || (h =? 300) then Returns 0
       else Raises;
     GetAncestor := fun h _ =>
       if (h =? 100) || (h =? 101) || (h =? 102) || (h =? 300)
       then Returns 100
       else if h =? 200 then Returns 200
       else Raises;
     WindowFromPoint := fun pt =>
       if (fst pt =? 10) && (snd pt =? 10) then Returns 102
       else if (fst pt =? 500) && (snd pt =? 500) then Returns 200
       else if (fst pt =? 20) && (snd pt =? 20) then Returns 300
       else Raises;
     GetForegroundWindow := Returns 100 |}.

(** A timer created at instant 0 whose target is the game window 100. *)
Definition sample_state : HookState :=
  {| timer := set_target_hwnd (init 0%Q) 100; activity_log := [] |}.

(** The same timer with no target. *)
Definition idle_state : HookState :=
  {| timer := init 0%Q; activity_log := [] |}.

Definition idle_steps : list Step :=
  [ Input {| desktop := sample_desktop; instant := 5%Q;
             event := KeyPress 65 |};
    SetTargetHwnd 0;
    Input {| desktop := sample_desktop; instant := 7%Q;
             event := MouseButton 10 10 1 true |};
    Input {| desktop := sample_desktop; instant := 8%Q;
             event := MouseButton 10 10 1 false |} ].

(** A directory snapshot, sorted by lowercased title: the native game
    window 1 and a browser window 2. *)
Definition sample_windows : list (Z * string) :=
  [ (1, "2004Scape Game"%string); (2, "New Tab - Google Chrome"%string) ].

(** A main window whose box lists the browser window 2 alone, selected. *)
Definition browser_selected : MainWindow :=
  {| window_combo :=
       {| items := [("New Tab - Google Chrome"%string, 2)];
          currentIndex := Some 0%nat |};
     timer_model := set_target_hwnd (init 0%Q) 2;
     _preferred_window_hint := Some "2004scape game"%string;
     target_changed_connected := true;
     _sound_fired := false |}.

(** A main window whose selection, window 7, has since been closed. *)
Definition closed_selected : MainWindow :=
  {| window_combo :=
       {| items := [("Old Tab - Mozilla Firefox"%string, 7)];
          currentIndex := Some 0%nat |};
     timer_model := set_target_hwnd (init 0%Q) 7;
     _preferred_window_hint := None;
     target_changed_connected := true;
     _sound_fired := false |}.

End Examples.

(** ** The priority order of the default selection, stated on the box *)

Module SelectionRules.
Import Strings Combo Selection.

(** [k] is the first index below [n] at which [p] holds. *)
Definition first_with (p : nat -> bool) (n k : nat) : Prop :=
  (k < n)%nat /\ p k = true /\ forall j : nat, (j < k)%nat -> p j = false.

(** [p] holds at no index below [n]. *)
Definition none_with (p : nat -> bool) (n : nat) : Prop :=
  forall j : nat, (j < n)%nat -> p j = false.

Section WithLower.

Variable lower : string -> string.

Definition native_at (c : QComboBox) (i : nat) : bool :=
  native_game_title (lower (itemText c i)).

Definition hinted_at (hint : string) (c : QComboBox) (i : nat) : bool :=
  contains hint (lower (itemText c i)).

Definition marked_at (c : QComboBox) (i : nat) : bool :=
  contains MARKER (lower (itemText c i)).

(** The index a nonempty box is set to: the first native game title; else,
    with a nonempty hint, the first title containing the hint; else the
    first title containing the marker; else index 0. *)
Definition chosen (hint : string) (c : QComboBox) (k : nat) : Prop :=
  first_with (native_at c) (count c) k
  \/ (none_with (native_at c) (count c)
      /\ hint <> EmptyString
      /\ first_with (hinted_at hint c) (count c) k)
  \/ (none_with (native_at c) (count c)
      /\ (hint = EmptyString \/ none_with (hinted_at hint c) (count c))
      /\ first_with (marked_at c) (count c) k)
  \/ (none_with (native_at c) (count c)
      /\ (hint = EmptyString \/ none_with (hinted_at hint c) (count c))
      /\ none_with (marked_at c) (count c)
      /\ k = 0%nat).

End WithLower.

(** [getattr(self, "_preferred_window_hint", "")] *)
Definition hint_of (self : MainWindow) : string :=
  match _preferred_window_hint self with
  | Some h => h
  | None => EmptyString
  end.

(** The state on which [_refresh_windows] runs its selection: the box
    refilled from the snapshot, the slot connected. *)
Definition refreshed_box (self : MainWindow) (windows : list (Z * string))
  : MainWindow :=
  reconnect_target_changed
    (with_combo self (refilled (window_combo self) windows)).

End SelectionRules.

(** ** What a sequence of steps asks of the hooks *)

Module HookTrace.
Import Hooks.

(** The instants at which the input steps of a sequence are delivered. *)
Definition input_instants (steps : list Step) : list Q :=
  flat_map (fun s => match s with
                     | Input d => [instant d]
                     | SetTargetHwnd _ => []
                     end) steps.

(** The handle the last [set_target_hwnd] step of a sequence stores, the
    target [h0] when there is no such step. *)
Definition last_target (h0 : Z) (steps : list Step) : Z :=
  fold_left (fun h s => match s with
                        | Input _ => h
                        | SetTargetHwnd h' => h'
                        end) steps h0.

End HookTrace.

(** ** Time formatting, the UI tick and the volume handlers *)

Module Display.
Import Timer Win32.

Local Open Scope Q_scope.

(** Python's [a < b] on numbers. *)
Definition qlt (a b : Q) : bool := negb (Qle_bool b a).

(** Python's two-argument [min(a, b)]: [b] when [b < a], else [a]. *)
Definition py_min (a b : Q) : Q := if qlt b a then b else a.

(** [_quantize_seconds_for_display]; [int(math.ceil(x))] is [Qceiling x]. *)
Definition _quantize_seconds_for_display (seconds : Q) : Z :=
  if qlt 0 seconds then Qceiling seconds
  else if qlt seconds 0 then (- Qceiling (Qabs seconds))%Z
  else 0%Z.

(** [str(n)] for an integer [n] that is not negative. *)
Definition py_str (n : Z) : string :=
  NilZero.string_of_uint (N.to_uint (Z.to_N n)).

(** [f"{n:02d}"] for an integer [n] that is not negative. *)
Definition py_02d (n : Z) : string :=
  let s := py_str n in
  if (String.length s <? 2)%nat then String "0" s else s.

(** [len(s)] *)
Definition py_len (s : string) : Z := Z.of_nat (String.length s).

(** [s.startswith("-")] *)
Definition starts_with_minus (s : string) : bool :=
  match s with
  | String c _ => Ascii.eqb c "-"
  | EmptyString => false
  end.

(** [_format_time]: the text and the digit count. *)
Definition _format_time (timer_model : ActivityTimer) (seconds : Q)
  : string * Z :=
  let neg := qlt seconds 0 in
  let s := _quantize_seconds_for_display seconds in
  let abs_s := Z.abs s in
  if (length_seconds (config timer_model) =? 90)%Z then
    let out := py_str abs_s in
    let out := if neg then String "-" out else out in
    (out, Z.max 3 (py_len out))
  else
    let mm := (abs_s / 60)%Z in
    let ss := (abs_s mod 60)%Z in
    let out := (py_02d mm ++ ":" ++ py_02d ss)%string in
    if neg then (String "-" out, 6%Z) else (out, 5%Z).

(** The [QSoundEffect]: whether its source is empty (the query may raise),
    whether [setVolume] and [play] raise, the volume last set and the
    number of times [play()] went through. *)
Record QSoundEffect := mkQSoundEffect {
  source_isEmpty : PyResult bool;
  setVolume_raises : bool;
  play_raises : bool;
  sound_volume : Q;
  play_count : nat
}.

(** What a [QLCDNumber] was last told: digit count, text, danger colour. *)
Record Lcd := mkLcd {
  digitCount : Z;
  shown : string;
  danger_colour : bool
}.

(** The fields of [MainWindow] that the tick and the volume handlers
    touch. *)
Record MainWindowUi := mkMainWindowUi {
  timer_model : ActivityTimer;
  _sound : QSoundEffect;
  _sound_fired : bool;
  _last_remaining : option Q;
  timer_display : Lcd;
  overlay_isVisible : bool;
  overlay_display : Lcd;
  volume_reset_btn_text : string
}.

Definition with_volume (t : ActivityTimer) (v : Q) : ActivityTimer :=
  {| config :=
       {| length_seconds := length_seconds (config t);
          threshold_seconds := threshold_seconds (config t);
          count_below_zero := count_below_zero (config t);
          sound_threshold_seconds := sound_threshold_seconds (config t);
          sound_file_rel := sound_file_rel (config t);
          volume := v |};
     target_hwnd := target_hwnd t;
     _last_activity_ts := _last_activity_ts t |}.

(** [_rearm_sound] *)
Definition _rearm_sound (self : MainWindowUi) : MainWindowUi :=
  {| timer_model := timer_model self;
     _sound := _sound self;
     _sound_fired := false;
     _last_remaining := _last_remaining self;
     timer_display := timer_display self;
     overlay_isVisible := overlay_isVisible self;
     overlay_display := overlay_display self;
     volume_reset_btn_text := volume_reset_btn_text self |}.

(** [_apply_volume_to_sound] *)
Definition _apply_volume_to_sound (self : MainWindowUi) : MainWindowUi :=
  let v := volume (config (timer_model self)) in
  let v := py_max 0 (py_min 1 v) in
  {| timer_model := with_volume (timer_model self) v;
     _sound :=
       if setVolume_raises (_sound self) then _sound self
       else
         {| source_isEmpty := source_isEmpty (_sound self);
            setVolume_raises := setVolume_raises (_sound self);
            play_raises := play_raises (_sound self);
            sound_volume := v;
            play_count := play_count (_sound self) |};
     _sound_fired := _sound_fired self;
     _last_remaining := _last_remaining self;
     timer_display := timer_display self;
     overlay_isVisible := overlay_isVisible self;
     overlay_display := overlay_display self;
     volume_reset_btn_text := volume_reset_btn_text self |}.

(** [self._sound.play()] *)
Definition play (self : MainWindowUi) : MainWindowUi :=
  {| timer_model := timer_model self;
     _sound :=
       if play_raises (_sound self) then _sound self
       else
         {| source_isEmpty := source_isEmpty (_sound self);
            setVolume_raises := setVolume_raises (_sound self);
            play_raises := play_raises (_sound self);
            sound_volume := sound_volume (_sound self);
            play_count := S (play_count (_sound self)) |};
     _sound_fired := _sound_fired self;
     _last_remaining := _last_remaining self;
     timer_display := timer_display self;
     overlay_isVisible := overlay_isVisible self;
     overlay_display := overlay_display self;
     volume_reset_btn_text := volume_reset_btn_text self |}.

(** [_play_sound_once] *)
Definition _play_sound_once (self : MainWindowUi) : MainWindowUi :=
  match source_isEmpty (_sound self) with
  | Raises => self
  | Returns true => self
  | Returns false => play (_apply_volume_to_sound self)
  end.

(** [_on_volume_changed(value)] *)
Definition _on_volume_changed (self : MainWindowUi) (value : Z)
  : MainWindowUi :=
  let value := Z.max 0 (Z.min 100 value) in
  let self :=
    {| timer_model :=
         with_volume (timer_model self) (inject_Z value / 100);
       _sound := _sound self;
       _sound_fired := _sound_fired self;
       _last_remaining := _last_remaining self;
       timer_display := timer_display self;
       overlay_isVisible := overlay_isVisible self;
       overlay_display := overlay_display self;
       volume_reset_btn_text := py_str value |} in
  _apply_volume_to_sound self.

(** [_tick_ui], run at instant [now]. *)
Definition _tick_ui (self : MainWindowUi) (now : Q) : MainWindowUi :=
  let remaining := fst (remaining_seconds (timer_model self) now) in
  let self :=
    match _last_remaining self with
    | Some last =>
        if qlt (last + (3 # 4)) remaining then _rearm_sound self else self
    | None => self
    end in
  let sound_thr :=
    inject_Z (sound_threshold_seconds (config (timer_model self))) in
  let self :=
    match _sound_fired self, _last_remaining self with
    | false, Some last =>
        if qlt sound_thr last && Qle_bool remaining sound_thr then
          let self := _play_sound_once self in
          {| timer_model := timer_model self;
             _sound := _sound self;
             _sound_fired := true;
             _last_remaining := _last_remaining self;
             timer_display := timer_display self;
             overlay_isVisible := overlay_isVisible self;
             overlay_display := overlay_display self;
             volume_reset_btn_text := volume_reset_btn_text self |}
        else self
    | _, _ => self
    end in
  let danger :=
    Qle_bool remaining
      (inject_Z (threshold_seconds (config (timer_model self)))) in
  let '(text, digits) := _format_time (timer_model self) remaining in
  let is90 := (length_seconds (config (timer_model self)) =? 90)%Z in
  let shown_digits :=
    if is90 then Z.max 3 digits
    else if starts_with_minus text then 6%Z else 5%Z in
  let lcd :=
    {| digitCount := shown_digits; shown := text;
       danger_colour := danger |} in
  {| timer_model := timer_model self;
     _sound := _sound self;
     _sound_fired := _sound_fired self;
     _last_remaining := Some remaining;
     timer_display := lcd;
     overlay_isVisible := overlay_isVisible self;
     overlay_display :=
       if overlay_isVisible self then lcd else overlay_display self;
     volume_reset_btn_text := volume_reset_btn_text self |}.

(** Ticks at the instants of [nows], in order, nothing else touching the
    window in between. *)
Definition ticks (self : MainWindowUi) (nows : list Q) : MainWindowUi :=
  fold_left _tick_ui nows self.

(** The instants of a list do not go back in time. *)
Fixpoint nondecreasing (nows : list Q) : Prop :=
  match nows with
  | [] => True
  | a :: rest =>
      match rest with
      | [] => True
      | b :: _ => a <= b /\ nondecreasing rest
      end
  end.

(** Two timers that count down alike: same length, same clamping, same
    timestamp, same thresholds. *)
Definition same_countdown (t t' : ActivityTimer) : Prop :=
  length_seconds (config t') = length_seconds (config t)
  /\ count_below_zero (config t') = count_below_zero (config t)
  /\ threshold_seconds (config t') = threshold_seconds (config t)
  /\ sound_threshold_seconds (config t')
     = sound_threshold_seconds (config t)
  /\ _last_activity_ts t' = _last_activity_ts t
  /\ target_hwnd t' = target_hwnd t.

(** The sound can play: its source is there and [play()] does not raise. *)
Definition can_play (snd : QSoundEffect) : bool :=
  match source_isEmpty snd with
  | Returns false => negb (play_raises snd)
  | _ => false
  end.

(** The remaining time jumped up since the last tick. *)
Definition jumped (self : MainWindowUi) (r : Q) : bool :=
  match _last_remaining self with
  | Some last => qlt (last + (3 # 4)) r
  | None => false
  end.

(** The remaining time came down to the sound threshold since the last
    tick. *)
Definition crossed (self : MainWindowUi) (r : Q) : bool :=
  match _last_remaining self with
  | Some last =>
      qlt (inject_Z (sound_threshold_seconds (config (timer_model self))))
        last
      && Qle_bool r
           (inject_Z (sound_threshold_seconds (config (timer_model self))))
  | None => false
  end.

(** [max(0.0, min(1.0, v))] *)
Definition clamp01 (v : Q) : Q := py_max 0 (py_min 1 v).

End Display.

(** ** Window enumeration and filtering *)

Module Enumeration.
Import Win32 Strings.

(** What the window manager and the process table answer while
    [list_target_windows] runs.  [IsWindowVisible] and [GetWindowText] do
    not raise: for a handle that is no window they answer 0 and the empty
    text. *)
Record Processes := mkProcesses {
  EnumWindows : list Z;
  IsWindowVisible : Z -> bool;
  GetWindowText : Z -> string;
  GetWindowLong : Z -> Z -> PyResult Z;
  GetWindowThreadProcessId : Z -> PyResult (Z * Z);
  OpenProcess : Z -> bool -> Z -> PyResult Z;
  GetModuleFileNameEx : Z -> Z -> PyResult string
}.

Definition GWL_EXSTYLE : Z := -20.
Definition WS_EX_TOOLWINDOW : Z := 128.
Definition PROCESS_QUERY_LIMITED_INFORMATION : Z := 4096.
Definition PROCESS_QUERY_INFORMATION : Z := 1024.
Definition PROCESS_VM_READ : Z := 16.

Definition BROWSER_EXES : list string :=
  ["chrome.exe"; "msedge.exe"; "firefox.exe"; "brave.exe"; "opera.exe";
   "vivaldi.exe"]%string.

(** [exe in BROWSER_EXES] *)
Definition is_browser_exe (exe : string) : bool :=
  existsb (String.eqb exe) BROWSER_EXES.

(** [s.split(sep)] for a one-character separator. *)
Fixpoint split_on (sep : ascii) (s : string) : list string :=
  match s with
  | EmptyString => [EmptyString]
  | String c rest =>
      if Ascii.eqb c sep then EmptyString :: split_on sep rest
      else
        match split_on sep rest with
        | [] => [String c EmptyString]
        | piece :: pieces => String c piece :: pieces
        end
  end.

(** [path.split("\\")[-1]] *)
Definition last_component (path : string) : string :=
  last (split_on "\" path) EmptyString.

(** Python's [sort(key=...)] on strings: a stable insertion by key, the
    keys compared as Python compares [str]. *)
Fixpoint insert_by_key {A : Type} (key : A -> string) (x : A) (l : list A)
  : list A :=
  match l with
  | [] => [x]
  | y :: l' =>
      if String.leb (key x) (key y) then x :: y :: l'
      else y :: insert_by_key key x l'
  end.

Definition sort_by_key {A : Type} (key : A -> string) (l : list A)
  : list A :=
  fold_right (insert_by_key key) [] l.

(** One key is not after the next, in the order of Python's [str]. *)
Definition key_le {A : Type} (key : A -> string) (a b : A) : Prop :=
  String.leb (key a) (key b) = true.

Section WithText.

(** [str.lower] and [str.strip]. *)
Variable lower : string -> string.
Variable strip : string -> string.

(** [_is_real_window] *)
Definition _is_real_window (os : Processes) (hwnd : Z) : bool :=
  if hwnd =? 0 then false
  else if negb (IsWindowVisible os hwnd) then false
  else
    let title := strip (GetWindowText os hwnd) in
    if String.eqb title EmptyString then false
    else
      match GetWindowLong os hwnd GWL_EXSTYLE with
      | Returns ex_style =>
          if negb (Z.land ex_style WS_EX_TOOLWINDOW =? 0) then false
          else true
      | Raises => true
      end.

(** [_get_exe_name_for_hwnd]; the [finally] block closes the handle and
    swallows what [CloseHandle] raises, which leaves the result as it is. *)
Definition _get_exe_name_for_hwnd (os : Processes) (hwnd : Z) : string :=
  match GetWindowThreadProcessId os hwnd with
  | Raises => EmptyString
  | Returns (_, pid) =>
      if pid =? 0 then EmptyString
      else
        let opened :=
          match OpenProcess os PROCESS_QUERY_LIMITED_INFORMATION false pid
          with
          | Returns hproc => Returns hproc
          | Raises =>
              OpenProcess os
                (Z.lor PROCESS_QUERY_INFORMATION PROCESS_VM_READ) false pid
          end in
        match opened with
        | Raises => EmptyString
        | Returns hproc =>
            match GetModuleFileNameEx os hproc 0 with
            | Raises => EmptyString
            | Returns path =>
                if String.eqb path EmptyString then EmptyString
                else lower (last_component path)
            end
        end
  end.

(** [_window_allowed] *)
Definition _window_allowed (os : Processes) (hwnd : Z) (title : string)
  : bool :=
  let tl := lower (strip title) in
  if contains "2004scape game" tl then true
  else is_browser_exe (_get_exe_name_for_hwnd os hwnd).

(** The callback [enum_cb] applied to every enumerated handle. *)
Definition enumerated (os : Processes) : list (Z * string) :=
  flat_map
    (fun hwnd =>
       if _is_real_window os hwnd then
         let title := GetWindowText os hwnd in
         if _window_allowed os hwnd title then [(hwnd, title)] else []
       else [])
    (EnumWindows os).

(** [list_target_windows] *)
Definition list_target_windows (os : Processes) : list (Z * string) :=
  sort_by_key (fun x => lower (snd x)) (enumerated os).

End WithText.

End Enumeration.

(** ** The saved window hint *)

Module Persistence.
Import Strings Selection.

Section WithText.

Variable lower : string -> string.
Variable strip : string -> string.

(** The value [_save_persistent_state] stores under
    ["config/preferred_window_hint"], [currentText] being the text of the
    current item of the box. *)
Definition saved_hint (currentText : string) : string :=
  let cur_title := lower (strip currentText) in
  if contains MARKER cur_title
     && negb (any_contained BROWSER_BRANDS cur_title)
  then MARKER
  else cur_title.

(** The hint [_load_persistent_state] sets, [stored] being the string
    found under the key, [None] when there is none or it is no string. *)
Definition loaded_hint (stored : option string) : string :=
  let hint :=
    match stored with
    | Some h => h
    | None => MARKER
    end in
  lower hint.

End WithText.

End Persistence.

(** ** Further worked examples *)

Module MoreExamples.
Import Timer Combo Selection.

(** Two browser windows, neither with the marker in its title. *)
Definition browser_windows : list (Z * string) :=
  [ (21, "Inbox - Mozilla Firefox"%string);
    (22, "Old School Wiki - Google Chrome"%string) ].

(** A main window started with an empty box and the saved hint [hint]. *)
Definition fresh_window (hint : option string) : MainWindow :=
  {| window_combo := {| items := []; currentIndex := None |};
     timer_model := init 0%Q;
     _preferred_window_hint := hint;
     target_changed_connected := false;
     _sound_fired := false |}.

(** On the sample desktop, from the target 100: a key press while 100 has
    the focus, the target switched to 200, a press on the grandchild of 100
    and a press on 200. *)
Definition busy_steps : list Hooks.Step :=
  [ Hooks.Input {| Hooks.desktop := Examples.sample_desktop;
                   Hooks.instant := 5%Q;
                   Hooks.event := Hooks.KeyPress 65 |};
    Hooks.SetTargetHwnd 200;
    Hooks.Input {| Hooks.desktop := Examples.sample_desktop;
                   Hooks.instant := 7%Q;
                   Hooks.event := Hooks.MouseButton 10 10 1 true |};
    Hooks.Input {| Hooks.desktop := Examples.sample_desktop;
                   Hooks.instant := 9%Q;
                   Hooks.event := Hooks.MouseButton 500 500 1 true |} ].

Definition busy_result : Hooks.HookState :=
  {| Hooks.timer :=
       {| config := default_config;
          target_hwnd := 200;
          _last_activity_ts := 9%Q |};
     Hooks.activity_log := [9%Q; 5%Q] |}.

(** A window whose sound is ready, armed, with 16 s read at the last
    tick; the timer was created at instant 0 with the default 90 s and the
    sound threshold 15. *)
Definition armed_ui : Display.MainWindowUi :=
  {| Display.timer_model := init 0%Q;
     Display._sound :=
       {| Display.source_isEmpty := Win32.Returns false;
          Display.setVolume_raises := false;
          Display.play_raises := false;
          Display.sound_volume := (1 # 2)%Q;
          Display.play_count := 0 |};
     Display._sound_fired := false;
     Display._last_remaining := Some 16%Q;
     Display.timer_display :=
       {| Display.digitCount := 3; Display.shown := "16"%string;
          Display.danger_colour := false |};
     Display.overlay_isVisible := true;
     Display.overlay_display :=
       {| Display.digitCount := 3; Display.shown := "16"%string;
          Display.danger_colour := false |};
     Display.volume_reset_btn_text := "50"%string |}.

(** Tick instants: 74 s, 75.5 s, 76 s and 80 s. *)
Definition idle_instants : list Q := [74%Q; (151 # 2)%Q; 76%Q; 80%Q].

(** [str.strip] on ASCII text: the characters Python counts as white
    space below 128. *)
Definition ascii_is_space (c : ascii) : bool :=
  let n := nat_of_ascii c in
  ((9 <=? n) && (n <=? 13) || (28 <=? n) && (n <=? 32))%nat.

Fixpoint ascii_lstrip (s : string) : string :=
  match s with
  | EmptyString => EmptyString
  | String c rest => if ascii_is_space c then ascii_lstrip rest else s
  end.

Fixpoint ascii_rstrip (s : string) : string :=
  match s with
  | EmptyString => EmptyString
  | String c rest =>
      match ascii_rstrip rest with
      | EmptyString =>
          if ascii_is_space c then EmptyString else String c EmptyString
      | rest' => String c rest'
      end
  end.

Definition ascii_strip (s : string) : string :=
  ascii_rstrip (ascii_lstrip s).

(** Six top-level windows in enumeration order: a browser (2), the game
    (1), an editor (3), a hidden window (4), a tool window of the game (5)
    and a second browser whose process cannot be opened with limited
    rights (6).  Window 3 answers no style query. *)
Definition sample_processes : Enumeration.Processes :=
  {| Enumeration.EnumWindows := [2; 1; 3; 4; 5; 6];
     Enumeration.IsWindowVisible := fun h => negb (h =? 4);
     Enumeration.GetWindowText := fun h =>
       if h =? 1 then "2004Scape Game"%string
       else if h =? 2 then "New Tab - Google Chrome"%string
       else if h =? 3 then "notes.txt - Notepad"%string
       else if h =? 4 then "2004Scape Game (hidden)"%string
       else if h =? 5 then "2004Scape Game tools"%string
       else if h =? 6 then " Inbox - Mozilla Firefox "%string
       else EmptyString;
     Enumeration.GetWindowLong := fun h _ =>
       if h =? 5 then Win32.Returns 384
       else if h =? 3 then Win32.Raises
       else Win32.Returns 256;
     Enumeration.GetWindowThreadProcessId := fun h =>
       if (1 <=? h) && (h <=? 6) then Win32.Returns (7, 1000 + h)
       else Win32.Raises;
     Enumeration.OpenProcess := fun access _ pid =>
       if (pid =? 1006) && (access =? 4096) then Win32.Raises
       else Win32.Returns (pid + 50);
     Enumeration.GetModuleFileNameEx := fun hproc _ =>
       if hproc =? 1051 then Win32.Returns "C:\Games\Client.exe"%string
       else if hproc =? 1052
       then Win32.Returns "C:\Program Files\Google\Chrome.EXE"%string
       else if hproc =? 1053
       then Win32.Returns "C:\Windows\notepad.exe"%string
       else if hproc =? 1056
       then Win32.Returns "C:\Program Files\Mozilla\firefox.exe"%string
       else Win32.Raises |}.

End MoreExamples.

(** * Properties *)

(** ** The timer model *)

Module TimerProps.
Import Timer.

Local Open Scope Q_scope.

Lemma py_max_is_Qmax (a b : Q) : py_max a b == Qmax a b.
Proof.
  unfold py_max.
  destruct (Qle_bool b a) eqn:E.
  - apply Qle_bool_iff in E. symmetry. now apply Q.max_l.
  - assert (H : ~ b <= a) by (rewrite <- Qle_bool_iff; congruence).
    symmetry. apply Q.max_r. apply Qnot_le_lt in H. now apply Qlt_le_weak.
Qed.

Lemma py_max_lower_bound (a b : Q) : a <= py_max a b.
Proof.
  unfold py_max.
  destruct (Qle_bool b a) eqn:E.
  - apply Qle_refl.
  - assert (H : ~ b <= a) by (rewrite <- Qle_bool_iff; congruence).
    apply Qnot_le_lt in H. now apply Qlt_le_weak.
Qed.

Lemma remaining_seconds_unclamped (t : ActivityTimer) (now : Q) :
  count_below_zero (config t) = true ->
  fst (remaining_seconds t now)
  = inject_Z (length_seconds (config t)) - (now - _last_activity_ts t).
Proof. intros H. unfold remaining_seconds. rewrite H. reflexivity. Qed.

Lemma remaining_seconds_clamped (t : ActivityTimer) (now : Q) :
  count_below_zero (config t) = false ->
  fst (remaining_seconds t now)
  = py_max 0 (inject_Z (length_seconds (config t))
              - (now - _last_activity_ts t)).
Proof. intros H. unfold remaining_seconds. rewrite H. reflexivity. Qed.

(** C3. A read at [now] returns [L - (now - ts)] when [count_below_zero] is
    set, also when that is negative; it returns [max(0, L - (now - ts))],
    hence a value that is not negative, when the flag is clear; the read
    leaves the timer, and so the stored timestamp, as it was; and a read at
    [now'] made after clamped reads, once the flag is set again, returns
    [L - (now' - ts)] from the timestamp [ts] stored before them.  The
    bound [ts <= now] of the claim is not needed. *)
Theorem remaining_seconds_clamps_only_the_read
  (t : ActivityTimer) (now now' : Q) :
  let L := inject_Z (length_seconds (config t)) in
  let ts := _last_activity_ts t in
  fst (remaining_seconds (set_count_below_zero t true) now) = L - (now - ts)
  /\ (L < now - ts ->
      fst (remaining_seconds (set_count_below_zero t true) now) < 0)
  /\ fst (remaining_seconds (set_count_below_zero t false) now)
     == Qmax 0 (L - (now - ts))
  /\ 0 <= fst (remaining_seconds (set_count_below_zero t false) now)
  /\ snd (remaining_seconds t now) = t
  /\ _last_activity_ts (snd (remaining_seconds t now)) = ts
  /\ fst (remaining_seconds
            (set_count_below_zero
               (snd (remaining_seconds (set_count_below_zero t false) now))
               true)
            now')
     = L - (now' - ts).
Proof.
  cbv zeta.
  repeat split.
  - intros H. rewrite remaining_seconds_unclamped by reflexivity.
    cbn. lra.
  - rewrite remaining_seconds_clamped by reflexivity. apply py_max_is_Qmax.
  - rewrite remaining_seconds_clamped by reflexivity.
    apply py_max_lower_bound.
Qed.

(** C8. [reset_to_full] and [note_activity], run at the same instant on the
    same timer, leave the same timer: the timestamp is that instant, the
    configuration and the target handle are as before. *)
Theorem reset_to_full_same_as_note_activity (t : ActivityTimer) (now : Q) :
  reset_to_full t now = note_activity t now
  /\ _last_activity_ts (reset_to_full t now) = now
  /\ config (reset_to_full t now) = config t
  /\ target_hwnd (reset_to_full t now) = target_hwnd t.
Proof. repeat split. Qed.

(** C9. [set_target_hwnd(h)] stores [h] when [h] is nonzero and [0]
    otherwise, and writes nothing else: timestamp and configuration stay,
    so the remaining time read at any instant is the same before and after
    the call. *)
Theorem set_target_hwnd_writes_only_the_target
  (t : ActivityTimer) (h : Z) (now : Q) :
  target_hwnd (set_target_hwnd t h) = (if (h =? 0)%Z then 0%Z else h)
  /\ target_hwnd (set_target_hwnd t h) = h
  /\ _last_activity_ts (set_target_hwnd t h) = _last_activity_ts t
  /\ config (set_target_hwnd t h) = config t
  /\ fst (remaining_seconds (set_target_hwnd t h) now)
     = fst (remaining_seconds t now).
Proof.
  repeat split.
  cbn. destruct (Z.eqb_spec h 0); congruence.
Qed.

(** The scenario L = 90 with [count_below_zero]: a reset at 0, a read at 95. *)
Example remaining_after_95_seconds :
  fst (remaining_seconds (reset_to_full (init 3) 0) 95) = -5.
Proof. reflexivity. Qed.

Example remaining_after_95_seconds_clamped :
  fst (remaining_seconds
         (set_count_below_zero (reset_to_full (init 3) 0) false) 95) = 0.
Proof. reflexivity. Qed.

Example remaining_after_76_seconds :
  fst (remaining_seconds (reset_to_full (init 3) 0) 76) = 14.
Proof. reflexivity. Qed.

End TimerProps.

(** ** The hit tester *)

Module HitTestProps.
Import Win32.

Lemma parent_walk_more_fuel (os : Desktop) (target : Z) :
  forall (n m : nat) (cur : Z) (r : WalkExit),
    parent_walk os n cur target = Some r -> (n <= m)%nat ->
    parent_walk os m cur target = Some r.
Proof.
  induction n as [|n IH]; intros m cur r Hn Hle; simpl in Hn.
  - destruct (cur =? 0) eqn:E; [|discriminate].
    destruct m; simpl; rewrite E; exact Hn.
  - destruct m as [|m]; [lia|]. simpl.
    destruct (cur =? 0); [exact Hn|].
    destruct (GetParent os cur) as [p|]; [|exact Hn].
    destruct (p =? target); [exact Hn|].
    apply IH; [exact Hn | lia].
Qed.

Lemma parent_walk_returns (os : Desktop) (target cur : Z) :
  chain_ends os cur ->
  exists (n : nat) (r : WalkExit), parent_walk os n cur target = Some r.
Proof.
  induction 1 as [|c Hfail|c p Hpar Hends [n [r IH]]].
  - exists 0%nat, LeftLoop. reflexivity.
  - exists 1%nat, LeftLoop. simpl. rewrite Hfail. now destruct (c =? 0).
  - destruct (c =? 0) eqn:Ec.
    + exists 0%nat, LeftLoop. simpl. now rewrite Ec.
    + destruct (p =? target) eqn:Ep.
      * exists 1%nat, FoundTarget. simpl. now rewrite Ec, Hpar, Ep.
      * exists (S n), r. simpl. now rewrite Ec, Hpar, Ep.
Qed.

Lemma parent_walk_found (os : Desktop) (target : Z) :
  forall (n : nat) (cur : Z),
    parent_walk os n cur target = Some FoundTarget ->
    on_parent_chain os target cur.
Proof.
  induction n as [|n IH]; intros cur H; simpl in H.
  - destruct (cur =? 0); discriminate.
  - destruct (Z.eqb_spec cur 0) as [|Hcur]; [discriminate|].
    destruct (GetParent os cur) as [p|] eqn:Hpar; [|discriminate].
    destruct (Z.eqb_spec p target) as [->|Hp].
    + now apply chain_parent.
    + apply chain_above with p; auto.
Qed.

Lemma parent_walk_left (os : Desktop) (target : Z) :
  forall (n : nat) (cur : Z),
    parent_walk os n cur target = Some LeftLoop ->
    ~ on_parent_chain os target cur.
Proof.
  induction n as [|n IH]; intros cur H Hchain; simpl in H.
  - destruct (Z.eqb_spec cur 0) as [Hz|]; [|discriminate].
    inversion Hchain; congruence.
  - destruct (Z.eqb_spec cur 0) as [Hz|Hcur].
    + inversion Hchain; congruence.
    + inversion Hchain as [c Hc Hpar|c p Hc Hpar Hup]; subst;
        rewrite Hpar in H.
      * rewrite Z.eqb_refl in H. discriminate.
      * destruct (p =? target); [discriminate|].
        exact (IH p H Hup).
Qed.

Lemma roots_match_same_root (os : Desktop) (c target : Z) :
  roots_match os c target = true <-> same_root os c target.
Proof.
  unfold roots_match, same_root. split.
  - destruct (GetAncestor os c GA_ROOT) as [rc|]; [|discriminate].
    destruct (GetAncestor os target GA_ROOT) as [rt|]; [|discriminate].
    intros H. apply andb_prop in H as [H Heq].
    apply andb_prop in H as [Hrc _].
    apply Z.eqb_eq in Heq. subst rt.
    exists rc. repeat split.
    intros ->. discriminate.
  - intros [r [-> [-> Hr]]].
    apply Z.eqb_neq in Hr. rewrite Hr, Z.eqb_refl. reflexivity.
Qed.

(** With a finite parent chain the hit tester returns, with the same answer
    for every larger bound on the walk. *)
Lemma hwnd_is_target_or_child_returns (os : Desktop) (c target : Z) :
  chain_ends os c ->
  exists (fuel : nat) (b : bool),
    forall n : nat, (fuel <= n)%nat ->
      hwnd_is_target_or_child os n c target = Some b.
Proof.
  intros Hends.
  destruct (parent_walk_returns os target c Hends) as [fuel [r Hr]].
  unfold hwnd_is_target_or_child.
  destruct ((c =? 0) || (target =? 0)); [now exists 0%nat, false|].
  destruct (c =? target); [now exists 0%nat, true|].
  exists fuel.
  destruct r.
  - exists true. intros n Hn.
    now rewrite (parent_walk_more_fuel os target fuel n c _ Hr Hn).
  - exists (roots_match os c target). intros n Hn.
    now rewrite (parent_walk_more_fuel os target fuel n c _ Hr Hn).
Qed.

Lemma hwnd_is_target_or_child_sound
  (os : Desktop) (n : nat) (c target : Z) (b : bool) :
  c <> 0 -> target <> 0 ->
  hwnd_is_target_or_child os n c target = Some b ->
  (b = true <-> belongsToTarget_spec os c target).
Proof.
  intros Hc Ht. unfold hwnd_is_target_or_child, belongsToTarget_spec.
  apply Z.eqb_neq in Hc, Ht. rewrite Hc, Ht. simpl.
  destruct (Z.eqb_spec c target) as [Heq|Hne].
  - intros [= <-]. split; auto.
  - destruct (parent_walk os n c target) as [[|]|] eqn:Hw; intros [= <-].
    + split; auto. intros _. right. left.
      exact (parent_walk_found os target n c Hw).
    + rewrite roots_match_same_root. split; auto.
      intros [Heq|[Hchain|Hroot]]; auto.
      * contradiction.
      * exfalso. exact (parent_walk_left os target n c Hw Hchain).
Qed.

(** C4. For a clicked window [c] and a target window [t] (nonzero handles)
    where the parent chain of [c] is finite, the hit tester returns, and
    returns [True] exactly when [c] is [t], or [t] is met on the parent
    chain of [c], or the root ancestors of both resolve to one nonzero
    window: the answer of the specified steps 2 to 5. *)
Theorem hwnd_is_target_or_child_refines_spec (os : Desktop) (c t : Z) :
  c <> 0 -> t <> 0 -> chain_ends os c ->
  exists (fuel : nat) (b : bool),
    (forall n : nat, (fuel <= n)%nat ->
       hwnd_is_target_or_child os n c t = Some b)
    /\ (b = true <-> belongsToTarget_spec os c t).
Proof.
  intros Hc Ht Hends.
  destruct (hwnd_is_target_or_child_returns os c t Hends) as [fuel [b Hb]].
  exists fuel, b. split; [exact Hb|].
  apply (hwnd_is_target_or_child_sound os fuel c t b Hc Ht).
  apply Hb. lia.
Qed.

Lemma sample_chain_ends_102 : chain_ends Examples.sample_desktop 102.
Proof.
  apply ends_above with 101; [reflexivity|].
  apply ends_above with 100; [reflexivity|].
  apply ends_above with 0; [reflexivity|].
  apply ends_at_root.
Defined.

(** On the sample desktop, a click on the grandchild 102 of the game window
    100. *)
Lemma hwnd_is_target_or_child_refines_spec_witness :
  exists (fuel : nat) (b : bool),
    (forall n : nat, (fuel <= n)%nat ->
       hwnd_is_target_or_child Examples.sample_desktop n 102 100 = Some b)
    /\ (b = true <-> belongsToTarget_spec Examples.sample_desktop 102 100).
Proof.
  apply (hwnd_is_target_or_child_refines_spec Examples.sample_desktop 102 100).
  - discriminate.
  - discriminate.
  - exact sample_chain_ends_102.
Defined.

(** C10. A zero clicked handle or a zero target handle makes the hit tester
    answer [False], whatever the other handle is, also when both are zero
    and so equal; no window query is needed for it (any bound on the walk
    gives the answer). *)
Theorem hwnd_is_target_or_child_zero_handle
  (os : Desktop) (fuel : nat) (h : Z) :
  hwnd_is_target_or_child os fuel 0 h = Some false
  /\ hwnd_is_target_or_child os fuel h 0 = Some false
  /\ hwnd_is_target_or_child os fuel 0 0 = Some false.
Proof.
  unfold hwnd_is_target_or_child. repeat split.
  now rewrite Z.eqb_refl, orb_true_r.
Qed.


(** The sample desktop: a click on the grandchild needs two steps of the
    walk; the unrelated window is rejected; the render surface is accepted
    through its root ancestor. *)
Example sample_grandchild_hit :
  hwnd_is_target_or_child Examples.sample_desktop 2 102 100 = Some true.
Proof. reflexivity. Qed.

Example sample_grandchild_short_of_fuel :
  hwnd_is_target_or_child Examples.sample_desktop 1 102 100 = None.
Proof. reflexivity. Qed.

Example sample_unrelated_miss :
  hwnd_is_target_or_child Examples.sample_desktop 5 200 100 = Some false.
Proof. reflexivity. Qed.

Example sample_shared_root_hit :
  hwnd_is_target_or_child Examples.sample_desktop 5 300 100 = Some true.
Proof. reflexivity. Qed.

(** A click on the game window while its grandchild is the target: the
    walk from 100 meets no parent, the shared root ancestor decides. *)
Example sample_parent_shares_root :
  hwnd_is_target_or_child Examples.sample_desktop 5 100 102 = Some true.
Proof. reflexivity. Qed.

End HitTestProps.

(** ** The input hooks *)

Module HookProps.
Import Timer Win32 Hooks.

Lemma log_not_extended (now : Q) (log : list Q) : log <> now :: log.
Proof.
  intros H. apply (f_equal (@List.length Q)) in H. simpl in H. lia.
Qed.

(** The log tells whether a callback called [note_activity()]. *)
Lemma log_same_iff (attributed : Prop) (st : HookState) (now : Q) :
  ~ attributed ->
  (activity_log st = now :: activity_log st <-> attributed).
Proof.
  intros Hno. split.
  - intros Hlog. now apply log_not_extended in Hlog.
  - intros Hatt. contradiction.
Qed.

Lemma log_extended_iff (attributed : Prop) (st : HookState) (now : Q) :
  attributed ->
  (activity_log (call_note_activity st now) = now :: activity_log st
   <-> attributed).
Proof. intros Hatt. split; [intros _; exact Hatt | reflexivity]. Qed.

Lemma set_target_hwnd_zero_idle (t : ActivityTimer) :
  target_hwnd t = 0 -> set_target_hwnd t 0 = t.
Proof. destruct t as [cfg tgt ts]. simpl. now intros ->. Qed.

Lemma on_key_press_zero_target
  (os : Desktop) (now : Q) (key : Z) (st : HookState) :
  target_hwnd (timer st) = 0 -> on_key_press os now key st = (Returned, st).
Proof. intros H. unfold on_key_press. now rewrite H. Qed.

Lemma on_click_zero_target (os : Desktop) (fuel : nat) (now : Q)
  (x y button : Z) (pressed : bool) (st : HookState) :
  target_hwnd (timer st) = 0 ->
  on_click os fuel now x y button pressed st = Some (Returned, st).
Proof.
  intros H. unfold on_click. rewrite H. now destruct pressed.
Qed.

(** C5. A key press calls [note_activity()] exactly when the target handle
    is nonzero and the foreground-window query, made while the event is
    handled, returns the target handle; in every other case (zero target,
    another foreground window, a failing query) the timer and the log of
    calls are as before the event. *)
Theorem on_key_press_attribution
  (os : Desktop) (now : Q) (key : Z) (st : HookState) :
  let target := target_hwnd (timer st) in
  let attributed :=
    target <> 0 /\ get_foreground_window os = Returns target in
  (attributed ->
   on_key_press os now key st = (Returned, call_note_activity st now))
  /\ (~ attributed -> snd (on_key_press os now key st) = st)
  /\ (activity_log (snd (on_key_press os now key st))
      = now :: activity_log st <-> attributed).
Proof.
  cbv zeta. unfold on_key_press.
  destruct (Z.eqb_spec (target_hwnd (timer st)) 0) as [Hz|Hnz]; simpl.
  - assert (Hno : ~ (target_hwnd (timer st) <> 0
                     /\ get_foreground_window os
                        = Returns (target_hwnd (timer st))))
      by (intros [Hnz _]; contradiction).
    split; [intros Hatt; contradiction|].
    split; [reflexivity|]. now apply log_same_iff.
  - destruct (get_foreground_window os) as [fg|] eqn:Hfg; simpl.
    + destruct (Z.eqb_spec fg (target_hwnd (timer st))) as [Heq|Hne]; simpl.
      * subst fg. split; [reflexivity|].
        split; [intros Hno; exfalso; apply Hno; now split|].
        apply log_extended_iff. now split.
      * assert (Hno : ~ (target_hwnd (timer st) <> 0
                         /\ Returns fg = Returns (target_hwnd (timer st))))
          by (intros [_ [= Heq]]; contradiction).
        split; [intros Hatt; contradiction|].
        split; [reflexivity|]. now apply log_same_iff.
    + assert (Hno : ~ (target_hwnd (timer st) <> 0
                       /\ Raises = Returns (target_hwnd (timer st))))
        by (intros [_ Habs]; discriminate).
      split; [intros Hatt; contradiction|].
      split; [reflexivity|]. now apply log_same_iff.
Qed.

(** C6. For a mouse-button event whose point-to-window query, when it
    answers with a window, answers with one whose parent chain is finite:
    the callback returns and no exception leaves it; it calls
    [note_activity()] exactly when the event is a press, the target handle
    is nonzero, the query returns a window and the hit tester answers
    [True] for that window and the target; otherwise, and in particular
    when the query raises, the timer and the log of calls are as before. *)
Theorem on_click_attribution (os : Desktop) (now : Q)
  (x y button : Z) (pressed : bool) (st : HookState) :
  (forall w : Z, WindowFromPoint os (x, y) = Returns w -> chain_ends os w) ->
  exists fuel : nat, forall n : nat, (fuel <= n)%nat ->
    exists st' : HookState,
      let target := target_hwnd (timer st) in
      let attributed :=
        pressed = true /\ target <> 0
        /\ exists w : Z,
             WindowFromPoint os (x, y) = Returns w
             /\ hwnd_is_target_or_child os n w target = Some true in
      on_click os n now x y button pressed st = Some (Returned, st')
      /\ (attributed -> st' = call_note_activity st now)
      /\ (~ attributed -> st' = st)
      /\ (activity_log st' = now :: activity_log st <-> attributed)
      /\ (WindowFromPoint os (x, y) = Raises -> st' = st).
Proof.
  intros Hfin. cbv zeta.
  assert (Hidle : forall (n : nat) (att : Prop),
             ~ att ->
             on_click os n now x y button pressed st = Some (Returned, st) ->
             exists st' : HookState,
               on_click os n now x y button pressed st = Some (Returned, st')
               /\ (att -> st' = call_note_activity st now)
               /\ (~ att -> st' = st)
               /\ (activity_log st' = now :: activity_log st <-> att)
               /\ (WindowFromPoint os (x, y) = Raises -> st' = st)).
  { intros n att Hno Hrun. exists st.
    split; [exact Hrun|].
    split; [intros Hatt; contradiction|].
    split; [reflexivity|].
    split; [now apply log_same_iff|reflexivity]. }
  destruct pressed.
  2:{ exists 0%nat. intros n _. apply Hidle; [|reflexivity].
      intros [Habs _]. discriminate. }
  destruct (Z.eqb_spec (target_hwnd (timer st)) 0) as [Hz|Hnz].
  { exists 0%nat. intros n _. apply Hidle.
    - intros [_ [Hnz _]]. contradiction.
    - unfold on_click. simpl. now rewrite Hz. }
  apply Z.eqb_neq in Hnz.
  destruct (WindowFromPoint os (x, y)) as [w|] eqn:Hw.
  2:{ exists 0%nat. intros n _. apply Hidle.
      - intros [_ [_ [w [Habs _]]]]. discriminate.
      - unfold on_click. simpl. now rewrite Hnz, Hw. }
  destruct (HitTestProps.hwnd_is_target_or_child_returns
              os w (target_hwnd (timer st)) (Hfin w eq_refl))
    as [fuel [b Hb]].
  exists fuel. intros n Hn.
  destruct b.
  - exists (call_note_activity st now).
    assert (Hatt : true = true /\ target_hwnd (timer st) <> 0
                   /\ exists w0 : Z, Returns w = Returns w0
                        /\ hwnd_is_target_or_child os n w0
                             (target_hwnd (timer st)) = Some true).
    { split; [reflexivity|]. split; [now apply Z.eqb_neq|].
      exists w. split; [reflexivity|]. now apply Hb. }
    split; [unfold on_click; simpl; now rewrite Hnz, Hw, (Hb n Hn)|].
    split; [reflexivity|].
    split; [intros Hno; contradiction|].
    split; [now apply log_extended_iff|discriminate].
  - apply Hidle.
    + intros [_ [_ [w0 [[= <-] Hhit]]]].
      rewrite (Hb n Hn) in Hhit. discriminate.
    + unfold on_click. simpl. now rewrite Hnz, Hw, (Hb n Hn).
Qed.

(** C7. From a state whose target handle is zero, through any sequence of
    key presses, mouse-button events and [set_target_hwnd] calls that store
    zero again, nothing changes: no callback calls [note_activity()], and
    the timestamp, the configuration and the zero target are as at the
    start.  Every callback returns, whatever the window queries would
    answer and whatever bound the parent walk is given. *)
Theorem zero_target_suspends_attribution (fuel : nat) (steps : list Step) :
  forall st : HookState,
    target_hwnd (timer st) = 0 ->
    (forall h : Z, In (SetTargetHwnd h) steps -> h = 0) ->
    run fuel steps st = Some st.
Proof.
  induction steps as [|s steps IH]; intros st Hz Hset; simpl.
  - reflexivity.
  - destruct s as [d|h].
    + unfold dispatch. destruct (event d) as [key|x y button pressed].
      * rewrite on_key_press_zero_target by exact Hz.
        apply IH; [exact Hz|]. intros h Hin. apply Hset. now right.
      * rewrite on_click_zero_target by exact Hz.
        apply IH; [exact Hz|]. intros h Hin. apply Hset. now right.
    + rewrite (Hset h) by now left.
      rewrite set_target_hwnd_zero_idle by exact Hz.
      destruct st as [tm log]. simpl.
      apply IH; [exact Hz|]. intros h' Hin. apply Hset. now right.
Qed.


(** On the sample desktop, a press at (10, 10), a point of the grandchild
    102 of the target 100. *)
Lemma on_click_attribution_witness :
  exists fuel : nat, forall n : nat, (fuel <= n)%nat ->
    exists st' : HookState,
      on_click Examples.sample_desktop n 3%Q 10 10 1 true
        Examples.sample_state = Some (Returned, st')
      /\ (true = true /\ target_hwnd (timer Examples.sample_state) <> 0
          /\ (exists w : Z,
                WindowFromPoint Examples.sample_desktop (10, 10) = Returns w
                /\ hwnd_is_target_or_child Examples.sample_desktop n w
                     (target_hwnd (timer Examples.sample_state)) = Some true)
          -> st' = call_note_activity Examples.sample_state 3%Q)
      /\ (~ (true = true /\ target_hwnd (timer Examples.sample_state) <> 0
             /\ exists w : Z,
                  WindowFromPoint Examples.sample_desktop (10, 10) = Returns w
                  /\ hwnd_is_target_or_child Examples.sample_desktop n w
                       (target_hwnd (timer Examples.sample_state))
                     = Some true)
          -> st' = Examples.sample_state)
      /\ (activity_log st' = 3%Q :: activity_log Examples.sample_state
          <-> true = true /\ target_hwnd (timer Examples.sample_state) <> 0
              /\ exists w : Z,
                   WindowFromPoint Examples.sample_desktop (10, 10)
                   = Returns w
                   /\ hwnd_is_target_or_child Examples.sample_desktop n w
                        (target_hwnd (timer Examples.sample_state))
                      = Some true)
      /\ (WindowFromPoint Examples.sample_desktop (10, 10) = Raises
          -> st' = Examples.sample_state).
Proof.
  apply (on_click_attribution Examples.sample_desktop 3%Q 10 10 1 true
           Examples.sample_state).
  intros w Hw. injection Hw as <-.
  exact HitTestProps.sample_chain_ends_102.
Defined.

(** With no target, a key press while the game window has the focus, a
    stored zero handle, and a press and a release on the game window. *)
Lemma zero_target_suspends_attribution_witness :
  run 0 Examples.idle_steps Examples.idle_state = Some Examples.idle_state.
Proof.
  apply (zero_target_suspends_attribution 0 Examples.idle_steps
           Examples.idle_state).
  - reflexivity.
  - intros h Hin. simpl in Hin.
    destruct Hin as [Hin|[Hin|[Hin|[Hin|[]]]]];
      try discriminate.
    now injection Hin as <-.
Defined.

Example sample_key_press_in_focus :
  on_key_press Examples.sample_desktop 3%Q 65 Examples.sample_state
  = (Returned, call_note_activity Examples.sample_state 3%Q).
Proof. reflexivity. Qed.

Example sample_key_press_other_target :
  on_key_press Examples.sample_desktop 3%Q 65
    {| timer := set_target_hwnd (init 0%Q) 200; activity_log := [] |}
  = (Returned,
     {| timer := set_target_hwnd (init 0%Q) 200; activity_log := [] |}).
Proof. reflexivity. Qed.

Example sample_click_query_raises :
  on_click Examples.sample_desktop 5 3%Q 11 10 1 true Examples.sample_state
  = Some (Returned, Examples.sample_state).
Proof. reflexivity. Qed.

Example sample_click_elsewhere :
  on_click Examples.sample_desktop 5 3%Q 500 500 1 true Examples.sample_state
  = Some (Returned, Examples.sample_state).
Proof. reflexivity. Qed.

End HookProps.

(** ** Target selection *)

Module SelectionProps.
Import Timer Strings Combo Selection.

Lemma zero_or_self (h : Z) : (if h =? 0 then 0 else h) = h.
Proof. destruct (Z.eqb_spec h 0); congruence. Qed.

Lemma first_index_from_some (p : nat -> bool) :
  forall (n i j : nat),
    first_index_from p i n = Some j ->
    (i <= j < i + n)%nat /\ p j = true.
Proof.
  induction n as [|n IH]; intros i j H; simpl in H; [discriminate|].
  destruct (p i) eqn:Hp.
  - injection H as <-. split; [lia|exact Hp].
  - apply IH in H as [Hrange Hj]. split; [lia|exact Hj].
Qed.

Lemma first_index_from_none (p : nat -> bool) :
  forall (n i : nat),
    first_index_from p i n = None ->
    forall j : nat, (i <= j < i + n)%nat -> p j = false.
Proof.
  induction n as [|n IH]; intros i H j Hj; simpl in H; [lia|].
  destruct (p i) eqn:Hp; [discriminate|].
  destruct (Nat.eq_dec j i) as [->|Hne]; [exact Hp|].
  apply (IH (S i) H). lia.
Qed.

Lemma first_index_finds (p : nat -> bool) (n j : nat) :
  (j < n)%nat -> p j = true ->
  exists k : nat, first_index p n = Some k.
Proof.
  intros Hj Hp. unfold first_index.
  destruct (first_index_from p 0 n) as [k|] eqn:E; [now exists k|].
  rewrite (first_index_from_none p n 0 E j) in Hp by lia. discriminate.
Qed.

Lemma fold_addItem_items (windows : list (Z * string)) :
  forall c : QComboBox,
    items (fold_left (fun c w => addItem c (snd w) (fst w)) windows c)
    = items c ++ map (fun w => (snd w, fst w)) windows.
Proof.
  induction windows as [|w ws IH]; intros c; simpl.
  - now rewrite app_nil_r.
  - rewrite IH. simpl. now rewrite <- app_assoc.
Qed.

Lemma refilled_items (c : QComboBox) (windows : list (Z * string)) :
  items (refilled c windows) = map (fun w => (snd w, fst w)) windows.
Proof. unfold refilled. now rewrite fold_addItem_items. Qed.

Lemma refilled_count (c : QComboBox) (windows : list (Z * string)) :
  count (refilled c windows) = List.length windows.
Proof. unfold count. now rewrite refilled_items, length_map. Qed.

Lemma refilled_itemData
  (c : QComboBox) (windows : list (Z * string)) (i : nat) :
  itemData (refilled c windows) i = option_map fst (nth_error windows i).
Proof.
  unfold itemData. rewrite refilled_items, nth_error_map.
  now destruct (nth_error windows i) as [[h title]|].
Qed.

Lemma refilled_itemText
  (c : QComboBox) (windows : list (Z * string)) (i : nat) :
  itemText (refilled c windows) i
  = match nth_error windows i with
    | Some w => snd w
    | None => EmptyString
    end.
Proof.
  unfold itemText. rewrite refilled_items, nth_error_map.
  now destruct (nth_error windows i) as [[h title]|].
Qed.

Lemma currentData_setCurrentIndex (c : QComboBox) (i : nat) :
  (i < count c)%nat -> currentData (setCurrentIndex c i) = itemData c i.
Proof.
  intros Hi. unfold currentData, setCurrentIndex. simpl.
  apply Nat.ltb_lt in Hi. now rewrite Hi.
Qed.

(** A handle that is listed is found by the loop of [_refresh_windows]. *)
Lemma listed_handle_found
  (c : QComboBox) (windows : list (Z * string)) (h : Z) :
  In h (map fst windows) ->
  exists k : nat,
    first_index
      (fun i =>
         match itemData (refilled c windows) i with
         | Some d => d =? h
         | None => false
         end)
      (count (refilled c windows)) = Some k.
Proof.
  intros Hin. apply in_map_iff in Hin as [w [Hw Hin]].
  apply In_nth_error in Hin as [j Hj].
  apply first_index_finds with j.
  - rewrite refilled_count. apply nth_error_Some. congruence.
  - rewrite refilled_itemData, Hj. simpl. now apply Z.eqb_eq.
Qed.

(** A handle that is not listed is not found. *)
Lemma unlisted_handle_not_found
  (c : QComboBox) (windows : list (Z * string)) (h : Z) :
  ~ In h (map fst windows) ->
  first_index
    (fun i =>
       match itemData (refilled c windows) i with
       | Some d => d =? h
       | None => false
       end)
    (count (refilled c windows)) = None.
Proof.
  intros Hout.
  destruct (first_index _ _) as [k|] eqn:E; [|reflexivity].
  exfalso. apply Hout.
  apply first_index_from_some in E as [_ Hk].
  rewrite refilled_itemData in Hk.
  destruct (nth_error windows k) as [w|] eqn:Hw; [|discriminate].
  simpl in Hk. apply Z.eqb_eq in Hk. subst h.
  apply in_map. now apply nth_error_In with k.
Qed.

(** The index change may run [_on_target_changed]; the box ends up the same
    either way. *)
Lemma window_combo_after_setCurrentIndex
  (self : MainWindow) (now : Q) (i : nat) :
  window_combo (window_combo_setCurrentIndex self now i)
  = setCurrentIndex (window_combo self) i.
Proof.
  unfold window_combo_setCurrentIndex. cbv zeta.
  now destruct (negb _ && _).
Qed.

Lemma target_after_set_target_hwnd
  (self : MainWindow) (t : ActivityTimer) (h : Z) :
  resolved_target (with_timer self (set_target_hwnd t h)) = h.
Proof. unfold resolved_target. simpl. apply zero_or_self. Qed.

Section WithLower.

Variable lower : string -> string.

(** On a box that lists a native game window, the first loop of
    [_select_best_default_target] decides: the target is the handle of the
    first such window. *)
Lemma select_best_prefers_native_game
  (self : MainWindow) (now : Q) (c : QComboBox) (windows : list (Z * string)) :
  window_combo self = refilled c windows ->
  (exists w : Z * string,
      In w windows /\ native_game_window lower w = true) ->
  exists w : Z * string,
    In w windows /\ native_game_window lower w = true
    /\ resolved_target (_select_best_default_target lower self now) = fst w.
Proof.
  intros Hcombo [w0 [Hin0 Hnat0]].
  apply In_nth_error in Hin0 as [j Hj].
  assert (Hjlt : (j < List.length windows)%nat)
    by (apply nth_error_Some; congruence).
  destruct (first_index_finds
              (fun i => native_game_title
                          (lower (itemText (refilled c windows) i)))
              (count (refilled c windows)) j) as [k Hk].
  { now rewrite refilled_count. }
  { now rewrite refilled_itemText, Hj. }
  pose proof (first_index_from_some _ _ _ _ Hk) as [Hrange Hnat].
  rewrite refilled_count in Hrange.
  rewrite refilled_itemText in Hnat.
  destruct (nth_error windows k) as [w|] eqn:Hw.
  2:{ apply nth_error_None in Hw. lia. }
  exists w. split; [now apply nth_error_In with k|]. split; [exact Hnat|].
  unfold _select_best_default_target. rewrite Hcombo.
  rewrite refilled_count.
  destruct (List.length windows =? 0)%nat eqn:Hlen.
  { apply Nat.eqb_eq in Hlen. lia. }
  rewrite <- (refilled_count c windows), Hk. cbv zeta.
  rewrite target_after_set_target_hwnd.
  rewrite window_combo_after_setCurrentIndex, Hcombo.
  rewrite currentData_setCurrentIndex by (rewrite refilled_count; lia).
  rewrite refilled_itemData, Hw. simpl.
  apply zero_or_self.
Qed.

(** C2. When the selection made before a refresh is a window (a nonzero
    handle) that the new directory snapshot still lists, the refresh keeps
    it as the target, whatever else is listed: a window with the marker
    title and no browser brand elsewhere in the list does not displace it. *)
Theorem refresh_keeps_present_selection
  (self : MainWindow) (now : Q) (windows : list (Z * string)) :
  previous_handle self <> 0 ->
  In (previous_handle self) (map fst windows) ->
  resolved_target (_refresh_windows lower self now windows)
  = previous_handle self.
Proof.
  intros Hnz Hin.
  unfold _refresh_windows, previous_handle in *.
  cbv zeta. simpl window_combo.
  apply Z.eqb_neq in Hnz. rewrite Hnz.
  destruct (listed_handle_found (window_combo self) windows _ Hin)
    as [k Hk].
  rewrite Hk.
  apply target_after_set_target_hwnd.
Qed.

(** C1, as amended. When there was no selection before the refresh (the
    previous handle is zero), or the window selected before is no longer in
    the snapshot, and the snapshot lists a window whose lowercased title
    contains the marker and no browser brand, the refresh selects such a
    window. *)
Theorem refresh_prefers_native_game_without_selection
  (self : MainWindow) (now : Q) (windows : list (Z * string)) :
  previous_handle self = 0
  \/ ~ In (previous_handle self) (map fst windows) ->
  (exists w : Z * string,
      In w windows /\ native_game_window lower w = true) ->
  selects_native_game_window lower self now windows.
Proof.
  intros Hprev Hnat.
  unfold selects_native_game_window, _refresh_windows, previous_handle in *.
  cbv zeta. simpl window_combo.
  set (current := data_or_zero (currentData (window_combo self))) in *.
  assert (Hnone :
            (if current =? 0 then None
             else
               first_index
                 (fun i =>
                    match itemData (refilled (window_combo self) windows) i
                    with
                    | Some d => d =? current
                    | None => false
                    end)
                 (count (refilled (window_combo self) windows))) = None).
  { destruct (Z.eqb_spec current 0) as [Hz|Hnz]; [reflexivity|].
    destruct Hprev as [Hz|Hout]; [contradiction|].
    now apply unlisted_handle_not_found. }
  rewrite Hnone.
  now apply select_best_prefers_native_game with (window_combo self).
Qed.

End WithLower.

(** The browser window 2 was selected; the refreshed list also holds the
    native game window 1. *)
Lemma refresh_keeps_present_selection_witness :
  resolved_target
    (_refresh_windows ascii_lower Examples.browser_selected 40%Q
       Examples.sample_windows)
  = previous_handle Examples.browser_selected.
Proof.
  apply (refresh_keeps_present_selection ascii_lower
           Examples.browser_selected 40%Q Examples.sample_windows).
  - vm_compute. discriminate.
  - vm_compute. right. left. reflexivity.
Defined.

(** The selected window 7 is gone from the list, which holds the native
    game window 1. *)
Lemma refresh_prefers_native_game_without_selection_witness :
  selects_native_game_window ascii_lower Examples.closed_selected 40%Q
    Examples.sample_windows.
Proof.
  apply (refresh_prefers_native_game_without_selection ascii_lower
           Examples.closed_selected 40%Q Examples.sample_windows).
  - right. vm_compute. intros [H|[H|[]]]; discriminate.
  - exists (1, "2004Scape Game"%string). split.
    + left. reflexivity.
    + vm_compute. reflexivity.
Defined.

(** C1 as stated fails: the snapshot lists the native game window 1, whose
    lowercased title has the marker and no browser brand, and the browser
    window 2 that was selected before; the refresh keeps 2, whose title has
    no marker, so no native game window is selected. *)
Lemma refresh_keeps_browser_despite_native_game :
  (exists w : Z * string,
      In w Examples.sample_windows
      /\ native_game_window ascii_lower w = true)
  /\ previous_handle Examples.browser_selected = 2
  /\ In 2 (map fst Examples.sample_windows)
  /\ resolved_target
       (_refresh_windows ascii_lower Examples.browser_selected 40%Q
          Examples.sample_windows) = 2
  /\ ~ selects_native_game_window ascii_lower Examples.browser_selected
        40%Q Examples.sample_windows.
Proof.
  split; [|split; [|split; [|split]]].
  - exists (1, "2004Scape Game"%string). split.
    + left. reflexivity.
    + vm_compute. reflexivity.
  - reflexivity.
  - simpl. right. left. reflexivity.
  - vm_compute. reflexivity.
  - intros [w [Hin [Hnat Htarget]]].
    destruct Hin as [<-|[<-|[]]].
    + vm_compute in Htarget. discriminate.
    + vm_compute in Hnat. discriminate.
Qed.

Example contains_marker :
  contains MARKER (ascii_lower "Play 2004Scape Game now") = true.
Proof. reflexivity. Qed.

Example browser_tab_is_not_native :
  native_game_title (ascii_lower "2004Scape Game - Google Chrome") = false.
Proof. reflexivity. Qed.

(** With nothing selected and no hint, the native window is picked among
    the game window and a browser tab of the same title. *)
Example fresh_start_picks_native_game :
  resolved_target
    (_refresh_windows ascii_lower
       {| window_combo := {| items := []; currentIndex := None |};
          timer_model := init 0%Q;
          _preferred_window_hint := None;
          target_changed_connected := false;
          _sound_fired := false |}
       1%Q
       [ (11, "2004Scape Game - Google Chrome"%string);
         (12, "2004scape Game"%string) ]) = 12.
Proof. reflexivity. Qed.

(** Only a browser tab carries the marker: the relaxed rule picks it. *)
Example fresh_start_falls_back_to_browser_tab :
  resolved_target
    (_refresh_windows ascii_lower
       {| window_combo := {| items := []; currentIndex := None |};
          timer_model := init 0%Q;
          _preferred_window_hint := None;
          target_changed_connected := false;
          _sound_fired := false |}
       1%Q
       [ (21, "Inbox - Mozilla Firefox"%string);
         (22, "2004Scape Game - Mozilla Firefox"%string) ]) = 22.
Proof. reflexivity. Qed.

End SelectionProps.

(** ** More on target selection *)

Module SelectionOrder.
Import Timer Strings Combo Selection SelectionRules.

Lemma first_index_from_least (p : nat -> bool) :
  forall (n i k : nat),
    first_index_from p i n = Some k ->
    forall j : nat, (i <= j < k)%nat -> p j = false.
Proof.
  induction n as [|n IH]; intros i k H j Hj; simpl in H; [discriminate|].
  destruct (p i) eqn:Hp.
  - injection H as <-. lia.
  - destruct (Nat.eq_dec j i) as [->|Hne]; [exact Hp|].
    apply (IH (S i) k H). lia.
Qed.

Lemma first_index_some_first_with (p : nat -> bool) (n k : nat) :
  first_index p n = Some k -> first_with p n k.
Proof.
  intros H. unfold first_with.
  pose proof (SelectionProps.first_index_from_some p n 0 k H) as [Hr Hk].
  split; [lia|]. split; [exact Hk|].
  intros j Hj. apply (first_index_from_least p n 0 k H). lia.
Qed.

Lemma first_index_none_none_with (p : nat -> bool) (n : nat) :
  first_index p n = None -> none_with p n.
Proof.
  intros H j Hj.
  apply (SelectionProps.first_index_from_none p n 0 H). lia.
Qed.

Lemma first_with_unique (p : nat -> bool) (n k k' : nat) :
  first_with p n k -> first_with p n k' -> k = k'.
Proof.
  intros [_ [Hk Hleast]] [_ [Hk' Hleast']].
  destruct (Nat.lt_trichotomy k k') as [Hlt|[Heq|Hgt]]; [|exact Heq|].
  - rewrite (Hleast' k Hlt) in Hk. discriminate.
  - rewrite (Hleast k' Hgt) in Hk'. discriminate.
Qed.

Lemma first_with_not_none (p : nat -> bool) (n k : nat) :
  first_with p n k -> none_with p n -> False.
Proof.
  intros [Hlt [Hk _]] Hnone. rewrite (Hnone k Hlt) in Hk. discriminate.
Qed.

Section WithLower.

Variable lower : string -> string.

(** The priority order names one index. *)
Lemma chosen_unique (hint : string) (c : QComboBox) (k k' : nat) :
  chosen lower hint c k -> chosen lower hint c k' -> k = k'.
Proof.
  intros [H1|[[N1 [Hh H2]]|[[N1 [Hn H3]]|[N1 [Hn [M1 H4]]]]]]
         [H1'|[[N1' [Hh' H2']]|[[N1' [Hn' H3']]|[N1' [Hn' [M1' H4']]]]]];
    try (destruct Hn as [Hn|Hn]; [contradiction|]);
    try (destruct Hn' as [Hn'|Hn']; [contradiction|]);
    try match goal with
        | F : first_with ?p ?n ?i, N : none_with ?p ?n |- _ =>
            exfalso; exact (first_with_not_none p n i F N)
        end;
    try match goal with
        | F : first_with ?p ?n ?i, F' : first_with ?p ?n ?j |- ?i = ?j =>
            exact (first_with_unique p n i j F F')
        end;
    congruence.
Qed.

(** What [_select_best_default_target] does to the box and the target. *)
Lemma select_best_chooses (self : MainWindow) (now : Q) :
  let c := window_combo self in
  let result := _select_best_default_target lower self now in
  (count c = 0%nat ->
   resolved_target result = 0 /\ window_combo result = c)
  /\ (count c <> 0%nat ->
      exists k : nat,
        chosen lower (hint_of self) c k
        /\ (k < count c)%nat
        /\ window_combo result = setCurrentIndex c k
        /\ currentIndex (window_combo result) = Some k
        /\ resolved_target result = data_or_zero (itemData c k)).
Proof.
  cbv zeta. split.
  - intros Hz. unfold _select_best_default_target. rewrite Hz. simpl.
    split; reflexivity.
  - intros Hnz. unfold _select_best_default_target.
    apply Nat.eqb_neq in Hnz. rewrite Hnz. apply Nat.eqb_neq in Hnz.
    fold (hint_of self).
    fold (native_at lower (window_combo self)).
    fold (marked_at lower (window_combo self)).
    set (c := window_combo self) in *.
    assert (Hdone : forall k : nat,
               chosen lower (hint_of self) c k -> (k < count c)%nat ->
               let self' := window_combo_setCurrentIndex self now k in
               chosen lower (hint_of self) c k
               /\ (k < count c)%nat
               /\ window_combo
                    (with_timer self'
                       (set_target_hwnd (timer_model self')
                          (data_or_zero (currentData (window_combo self')))))
                  = setCurrentIndex c k
               /\ currentIndex
                    (window_combo
                       (with_timer self'
                          (set_target_hwnd (timer_model self')
                             (data_or_zero
                                (currentData (window_combo self'))))))
                  = Some k
               /\ resolved_target
                    (with_timer self'
                       (set_target_hwnd (timer_model self')
                          (data_or_zero (currentData (window_combo self')))))
                  = data_or_zero (itemData c k)).
    { intros k Hch Hlt. cbv zeta.
      split; [exact Hch|]. split; [exact Hlt|].
      rewrite SelectionProps.target_after_set_target_hwnd.
      simpl window_combo.
      rewrite SelectionProps.window_combo_after_setCurrentIndex.
      fold c.
      rewrite SelectionProps.currentData_setCurrentIndex by exact Hlt.
      split; [reflexivity|]. split; [|reflexivity].
      unfold setCurrentIndex. simpl.
      apply Nat.ltb_lt in Hlt. now rewrite Hlt. }
    destruct (first_index (native_at lower c) (count c)) as [k1|] eqn:E1.
    { exists k1. apply first_index_some_first_with in E1.
      apply Hdone; [now left | apply E1]. }
    apply first_index_none_none_with in E1.
    destruct (String.eqb_spec (hint_of self) EmptyString) as [Hh|Hh]; simpl.
    { destruct (first_index (marked_at lower c) (count c)) as [k3|] eqn:E3.
      - exists k3. apply first_index_some_first_with in E3.
        apply Hdone; [|apply E3].
        right. right. left. repeat split; auto; apply E3.
      - exists 0%nat. apply first_index_none_none_with in E3.
        apply Hdone; [|lia].
        right. right. right. repeat split; auto. }
    change (fun i : nat => contains (hint_of self) (lower (itemText c i)))
      with (hinted_at lower (hint_of self) c).
    destruct (first_index (hinted_at lower (hint_of self) c) (count c))
      as [k2|] eqn:E2.
    { exists k2. apply first_index_some_first_with in E2.
      apply Hdone; [|apply E2].
      right. left. split; [exact E1|]. split; [exact Hh|exact E2]. }
    apply first_index_none_none_with in E2.
    destruct (first_index (marked_at lower c) (count c)) as [k3|] eqn:E3.
    + exists k3. apply first_index_some_first_with in E3.
      apply Hdone; [|apply E3].
      right. right. left. split; [exact E1|]. split; [now right|exact E3].
    + exists 0%nat. apply first_index_none_none_with in E3.
      apply Hdone; [|lia].
      right. right. right.
      split; [exact E1|]. split; [now right|]. split; [exact E3|reflexivity].
Qed.

(** X1. [_select_best_default_target] on an empty box stores the zero
    target and leaves the box alone; on a nonempty box it sets the box to
    the one index the priority order names (first native game title; else
    first title with the nonempty hint; else first title with the marker;
    else index 0) and stores the user data of that item as the target. *)
Theorem select_best_follows_priority_order (self : MainWindow) (now : Q) :
  let c := window_combo self in
  let result := _select_best_default_target lower self now in
  (count c = 0%nat ->
   resolved_target result = 0 /\ window_combo result = c)
  /\ (count c <> 0%nat ->
      exists k : nat,
        chosen lower (hint_of self) c k
        /\ (forall k' : nat, chosen lower (hint_of self) c k' -> k' = k)
        /\ (k < count c)%nat
        /\ window_combo result = setCurrentIndex c k
        /\ currentIndex (window_combo result) = Some k
        /\ resolved_target result = data_or_zero (itemData c k)).
Proof.
  cbv zeta. destruct (select_best_chooses self now) as [Hempty Hsome].
  split; [exact Hempty|].
  intros Hnz. destruct (Hsome Hnz) as [k [Hch [Hk [Hbox [Hidx Ht]]]]].
  exists k. split; [exact Hch|]. split.
  - intros k' Hch'. exact (chosen_unique _ _ k' k Hch' Hch).
  - split; [exact Hk|]. split; [exact Hbox|]. split; [exact Hidx|exact Ht].
Qed.

Lemma refresh_without_selection
  (self : MainWindow) (now : Q) (windows : list (Z * string)) :
  previous_handle self = 0
  \/ ~ In (previous_handle self) (map fst windows) ->
  _refresh_windows lower self now windows
  = _select_best_default_target lower (refreshed_box self windows) now.
Proof.
  intros Hprev. unfold _refresh_windows, previous_handle in *. cbv zeta.
  simpl window_combo.
  destruct (Z.eqb_spec (data_or_zero (currentData (window_combo self))) 0)
    as [Hz|Hnz]; [reflexivity|].
  destruct Hprev as [Hz|Hout]; [contradiction|].
  now rewrite SelectionProps.unlisted_handle_not_found.
Qed.

Lemma refresh_with_selection
  (self : MainWindow) (now : Q) (windows : list (Z * string)) :
  previous_handle self <> 0 ->
  In (previous_handle self) (map fst windows) ->
  exists k : nat,
    (k < List.length windows)%nat
    /\ itemData (refilled (window_combo self) windows) k
       = Some (previous_handle self)
    /\ _refresh_windows lower self now windows
       = with_timer
           (window_combo_setCurrentIndex (refreshed_box self windows) now k)
           (set_target_hwnd
              (timer_model
                 (window_combo_setCurrentIndex
                    (refreshed_box self windows) now k))
              (previous_handle self)).
Proof.
  intros Hnz Hin. unfold _refresh_windows, previous_handle in *. cbv zeta.
  simpl window_combo.
  apply Z.eqb_neq in Hnz. rewrite Hnz.
  destruct (SelectionProps.listed_handle_found
              (window_combo self) windows _ Hin) as [k Hk].
  rewrite Hk. exists k.
  pose proof (SelectionProps.first_index_from_some _ _ _ _ Hk) as [Hr Hd].
  rewrite SelectionProps.refilled_count in Hr.
  split; [lia|]. split; [|reflexivity].
  destruct (itemData (refilled (window_combo self) windows) k) as [d|];
    [|discriminate].
  apply Z.eqb_eq in Hd. now subst d.
Qed.

Lemma listed_data (c : QComboBox) (windows : list (Z * string)) (k : nat) :
  (k < List.length windows)%nat ->
  exists w : Z * string,
    nth_error windows k = Some w /\ In w windows
    /\ itemData (refilled c windows) k = Some (fst w)
    /\ itemText (refilled c windows) k = snd w.
Proof.
  intros Hk.
  destruct (nth_error windows k) as [w|] eqn:Hw.
  2:{ apply nth_error_None in Hw. lia. }
  exists w. split; [reflexivity|]. split; [now apply nth_error_In with k|].
  rewrite SelectionProps.refilled_itemData,
    SelectionProps.refilled_itemText, Hw.
  split; reflexivity.
Qed.

Lemma previous_handle_with_timer (self : MainWindow) (t : ActivityTimer) :
  previous_handle (with_timer self t) = previous_handle self.
Proof. reflexivity. Qed.

Lemma previous_handle_after_setCurrentIndex
  (self : MainWindow) (now : Q) (k : nat) :
  (k < count (window_combo self))%nat ->
  previous_handle (window_combo_setCurrentIndex self now k)
  = data_or_zero (itemData (window_combo self) k).
Proof.
  intros Hk. unfold previous_handle.
  rewrite SelectionProps.window_combo_after_setCurrentIndex.
  now rewrite SelectionProps.currentData_setCurrentIndex.
Qed.

Lemma previous_handle_empty (self : MainWindow) :
  count (window_combo self) = 0%nat -> previous_handle self = 0.
Proof.
  intros Hz. unfold previous_handle, currentData, itemData.
  destruct (currentIndex (window_combo self)) as [i|]; [|reflexivity].
  unfold count in Hz. apply length_zero_iff_nil in Hz. rewrite Hz.
  now destruct i.
Qed.

(** After a refresh: the target, and the box against the target. *)
Lemma refresh_outcome
  (self : MainWindow) (now : Q) (windows : list (Z * string)) :
  let result := _refresh_windows lower self now windows in
  items (window_combo result) = map (fun w => (snd w, fst w)) windows
  /\ previous_handle result = resolved_target result
  /\ (windows = [] -> resolved_target result = 0)
  /\ (windows <> [] -> In (resolved_target result) (map fst windows)).
Proof.
  cbv zeta.
  assert (Hcount : count (window_combo (refreshed_box self windows))
                   = List.length windows)
    by (simpl; apply SelectionProps.refilled_count).
  assert (Hfound : previous_handle self <> 0
                   /\ In (previous_handle self) (map fst windows)
                   \/ (previous_handle self = 0
                       \/ ~ In (previous_handle self) (map fst windows))).
  { destruct (Z.eq_dec (previous_handle self) 0) as [Hz|Hnz]; [tauto|].
    destruct (in_dec Z.eq_dec (previous_handle self) (map fst windows));
      tauto. }
  destruct Hfound as [[Hnz Hin]|Hprev].
  - destruct (refresh_with_selection self now windows Hnz Hin)
      as [k [Hk [Hd ->]]].
    rewrite SelectionProps.target_after_set_target_hwnd.
    rewrite previous_handle_with_timer.
    rewrite previous_handle_after_setCurrentIndex
      by (rewrite Hcount; exact Hk).
    simpl window_combo.
    rewrite SelectionProps.window_combo_after_setCurrentIndex.
    simpl. rewrite Hd, SelectionProps.refilled_items. simpl.
    split; [reflexivity|]. split; [apply SelectionProps.zero_or_self|].
    split; [intros ->; destruct Hin|intros _; exact Hin].
  - rewrite refresh_without_selection by exact Hprev.
    destruct (select_best_chooses (refreshed_box self windows) now)
      as [Hempty Hsome].
    rewrite Hcount in Hempty, Hsome.
    destruct windows as [|w0 ws].
    + destruct (Hempty eq_refl) as [Ht Hc].
      rewrite Ht, Hc.
      unfold previous_handle. rewrite Hc.
      split; [reflexivity|]. split; [reflexivity|].
      split; [reflexivity|]. intros Habs. now destruct Habs.
    + destruct Hsome as [k [_ [Hk [Hc [_ Ht]]]]]; [simpl; lia|].
      destruct (listed_data (window_combo self) (w0 :: ws) k Hk)
        as [w [_ [Hin [Hd _]]]].
      simpl window_combo in Ht, Hc.
      rewrite Ht, Hc, Hd.
      unfold previous_handle. rewrite Hc.
      rewrite SelectionProps.currentData_setCurrentIndex
        by (rewrite SelectionProps.refilled_count; exact Hk).
      rewrite Hd. simpl data_or_zero. rewrite SelectionProps.zero_or_self.
      split; [simpl; now rewrite SelectionProps.refilled_items|].
      split; [reflexivity|].
      split; [discriminate|intros _; now apply in_map].
Qed.

(** X2. After [_refresh_windows] the target is zero when the snapshot is
    empty and the handle of a listed window otherwise: the refresh never
    keeps a target that is not in the snapshot. *)
Theorem refresh_target_is_listed
  (self : MainWindow) (now : Q) (windows : list (Z * string)) :
  let result := _refresh_windows lower self now windows in
  (windows = [] -> resolved_target result = 0)
  /\ (windows <> [] -> In (resolved_target result) (map fst windows)).
Proof.
  cbv zeta.
  destruct (refresh_outcome self now windows) as [_ [_ [Hempty Hlisted]]].
  split; [exact Hempty|exact Hlisted].
Qed.

(** X3. After [_refresh_windows] the box lists exactly the snapshot, in
    order, and the user data of its current item (zero when there is none)
    is the target stored in the timer: what the box shows as selected and
    what the hooks watch agree. *)
Theorem refresh_box_agrees_with_target
  (self : MainWindow) (now : Q) (windows : list (Z * string)) :
  let result := _refresh_windows lower self now windows in
  items (window_combo result) = map (fun w => (snd w, fst w)) windows
  /\ data_or_zero (currentData (window_combo result))
     = resolved_target result.
Proof.
  cbv zeta.
  destruct (refresh_outcome self now windows) as [Hitems [Hprev _]].
  split; [exact Hitems|exact Hprev].
Qed.

(** Tests on titles, read on the refilled box and on the snapshot. *)
Lemma title_first_with (q : string -> bool)
  (c : QComboBox) (windows : list (Z * string)) (k : nat) :
  first_with (fun i => q (lower (itemText (refilled c windows) i)))
    (count (refilled c windows)) k ->
  exists w : Z * string,
    nth_error windows k = Some w /\ In w windows
    /\ q (lower (snd w)) = true
    /\ itemData (refilled c windows) k = Some (fst w)
    /\ forall (j : nat) (w' : Z * string),
         (j < k)%nat -> nth_error windows j = Some w' ->
         q (lower (snd w')) = false.
Proof.
  intros [Hk [Hq Hleast]]. rewrite SelectionProps.refilled_count in Hk.
  destruct (listed_data c windows k Hk) as [w [Hw [Hin [Hd Ht]]]].
  exists w. rewrite Ht in Hq.
  split; [exact Hw|]. split; [exact Hin|]. split; [exact Hq|].
  split; [exact Hd|].
  intros j w' Hj Hw'. specialize (Hleast j Hj).
  now rewrite SelectionProps.refilled_itemText, Hw' in Hleast.
Qed.

Lemma title_none_with (q : string -> bool)
  (c : QComboBox) (windows : list (Z * string)) :
  none_with (fun i => q (lower (itemText (refilled c windows) i)))
    (count (refilled c windows))
  <-> (forall w : Z * string, In w windows -> q (lower (snd w)) = false).
Proof.
  unfold none_with. rewrite SelectionProps.refilled_count. split.
  - intros Hnone w Hin. apply In_nth_error in Hin as [j Hj].
    assert (Hlt : (j < List.length windows)%nat)
      by (apply nth_error_Some; congruence).
    specialize (Hnone j Hlt).
    now rewrite SelectionProps.refilled_itemText, Hj in Hnone.
  - intros Hall j Hj.
    destruct (listed_data c windows j Hj) as [w [_ [Hin [_ Ht]]]].
    rewrite Ht. now apply Hall.
Qed.

Lemma native_none (c : QComboBox) (windows : list (Z * string)) :
  none_with (native_at lower (refilled c windows))
    (count (refilled c windows))
  <-> (forall w : Z * string,
         In w windows -> native_game_window lower w = false).
Proof. exact (title_none_with native_game_title c windows). Qed.

Lemma hinted_none (hint : string)
  (c : QComboBox) (windows : list (Z * string)) :
  none_with (hinted_at lower hint (refilled c windows))
    (count (refilled c windows))
  <-> (forall w : Z * string,
         In w windows -> contains hint (lower (snd w)) = false).
Proof. exact (title_none_with (contains hint) c windows). Qed.

Lemma marked_none (c : QComboBox) (windows : list (Z * string)) :
  none_with (marked_at lower (refilled c windows))
    (count (refilled c windows))
  <-> (forall w : Z * string,
         In w windows -> contains MARKER (lower (snd w)) = false).
Proof. exact (title_none_with (contains MARKER) c windows). Qed.

Lemma hinted_first (hint : string)
  (c : QComboBox) (windows : list (Z * string)) (k : nat) :
  first_with (hinted_at lower hint (refilled c windows))
    (count (refilled c windows)) k ->
  exists w : Z * string,
    nth_error windows k = Some w /\ In w windows
    /\ contains hint (lower (snd w)) = true
    /\ itemData (refilled c windows) k = Some (fst w)
    /\ forall (j : nat) (w' : Z * string),
         (j < k)%nat -> nth_error windows j = Some w' ->
         contains hint (lower (snd w')) = false.
Proof. exact (title_first_with (contains hint) c windows k). Qed.

Lemma marked_first (c : QComboBox) (windows : list (Z * string)) (k : nat) :
  first_with (marked_at lower (refilled c windows))
    (count (refilled c windows)) k ->
  exists w : Z * string,
    nth_error windows k = Some w /\ In w windows
    /\ contains MARKER (lower (snd w)) = true
    /\ itemData (refilled c windows) k = Some (fst w)
    /\ forall (j : nat) (w' : Z * string),
         (j < k)%nat -> nth_error windows j = Some w' ->
         contains MARKER (lower (snd w')) = false.
Proof. exact (title_first_with (contains MARKER) c windows k). Qed.

(** The outcome of a refresh that finds no selection to keep, by the rule
    that decides. *)
Lemma refresh_by_rule
  (self : MainWindow) (now : Q) (windows : list (Z * string)) :
  previous_handle self = 0
  \/ ~ In (previous_handle self) (map fst windows) ->
  windows <> [] ->
  exists k : nat,
    chosen lower (hint_of self) (refilled (window_combo self) windows) k
    /\ (k < List.length windows)%nat
    /\ resolved_target (_refresh_windows lower self now windows)
       = data_or_zero (itemData (refilled (window_combo self) windows) k).
Proof.
  intros Hprev Hne. rewrite refresh_without_selection by exact Hprev.
  destruct (select_best_chooses (refreshed_box self windows) now)
    as [_ Hsome].
  simpl window_combo in Hsome.
  rewrite SelectionProps.refilled_count in Hsome.
  destruct Hsome as [k [Hch [Hk [_ [_ Ht]]]]].
  { destruct windows; [congruence|simpl; lia]. }
  exists k. split; [exact Hch|]. split; [exact Hk|exact Ht].
Qed.

(** X4. A refresh that finds no selection to keep, over a snapshot without
    a native game window, with a nonempty saved hint that some lowercased
    title contains, selects the first listed window whose lowercased title
    contains the hint. *)
Theorem refresh_restores_hinted_window
  (self : MainWindow) (now : Q) (windows : list (Z * string)) :
  previous_handle self = 0
  \/ ~ In (previous_handle self) (map fst windows) ->
  (forall w : Z * string,
      In w windows -> native_game_window lower w = false) ->
  hint_of self <> EmptyString ->
  (exists w : Z * string,
      In w windows /\ contains (hint_of self) (lower (snd w)) = true) ->
  exists (k : nat) (w : Z * string),
    nth_error windows k = Some w
    /\ contains (hint_of self) (lower (snd w)) = true
    /\ (forall (j : nat) (w' : Z * string),
          (j < k)%nat -> nth_error windows j = Some w' ->
          contains (hint_of self) (lower (snd w')) = false)
    /\ resolved_target (_refresh_windows lower self now windows) = fst w.
Proof.
  intros Hprev Hnonative Hhint [w0 [Hin0 Hw0]].
  assert (Hne : windows <> []) by (intros ->; destruct Hin0).
  destruct (refresh_by_rule self now windows Hprev Hne)
    as [k [Hch [Hk Ht]]].
  assert (Hnat : none_with
                   (native_at lower (refilled (window_combo self) windows))
                   (count (refilled (window_combo self) windows)))
    by (apply native_none; exact Hnonative).
  assert (Hsome : ~ none_with
                      (hinted_at lower (hint_of self)
                         (refilled (window_combo self) windows))
                      (count (refilled (window_combo self) windows))).
  { intros Hnone.
    pose proof (proj1 (hinted_none _ _ _) Hnone) as Hall.
    rewrite (Hall w0 Hin0) in Hw0. discriminate. }
  destruct Hch as [H1|[[_ [_ H2]]|[[_ [[H3|H3] _]]|[_ [[H4|H4] _]]]]].
  - exfalso. exact (first_with_not_none _ _ _ H1 Hnat).
  - apply hinted_first in H2 as [w [Hw [_ [Hq [Hd Hleast]]]]].
    exists k, w. split; [exact Hw|]. split; [exact Hq|].
    split; [exact Hleast|].
    rewrite Ht, Hd. simpl. apply SelectionProps.zero_or_self.
  - contradiction.
  - contradiction.
  - contradiction.
  - contradiction.
Qed.

(** X5. A refresh that finds no selection to keep, over a snapshot without
    a native game window and without a title containing a nonempty hint:
    if some lowercased title contains the marker (a browser tab), the first
    such window is selected; if none does, the first listed window is. *)
Theorem refresh_falls_back_to_marker_then_first
  (self : MainWindow) (now : Q) (windows : list (Z * string)) :
  previous_handle self = 0
  \/ ~ In (previous_handle self) (map fst windows) ->
  (forall w : Z * string,
      In w windows -> native_game_window lower w = false) ->
  hint_of self = EmptyString
  \/ (forall w : Z * string,
        In w windows -> contains (hint_of self) (lower (snd w)) = false) ->
  ((exists w : Z * string,
       In w windows /\ contains MARKER (lower (snd w)) = true) ->
   exists (k : nat) (w : Z * string),
     nth_error windows k = Some w
     /\ contains MARKER (lower (snd w)) = true
     /\ (forall (j : nat) (w' : Z * string),
           (j < k)%nat -> nth_error windows j = Some w' ->
           contains MARKER (lower (snd w')) = false)
     /\ resolved_target (_refresh_windows lower self now windows) = fst w)
  /\ ((forall w : Z * string,
         In w windows -> contains MARKER (lower (snd w)) = false) ->
      forall (w0 : Z * string) (rest : list (Z * string)),
        windows = w0 :: rest ->
        resolved_target (_refresh_windows lower self now windows) = fst w0).
Proof.
  intros Hprev Hnonative Hnohint.
  assert (Hnat : none_with
                   (native_at lower (refilled (window_combo self) windows))
                   (count (refilled (window_combo self) windows)))
    by (apply native_none; exact Hnonative).
  assert (Hhint : hint_of self <> EmptyString ->
                  none_with
                    (hinted_at lower (hint_of self)
                       (refilled (window_combo self) windows))
                    (count (refilled (window_combo self) windows))).
  { intros Hh. destruct Hnohint as [Hz|Hnone]; [contradiction|].
    now apply hinted_none. }
  split.
  - intros [w0 [Hin0 Hw0]].
    assert (Hne : windows <> []) by (intros ->; destruct Hin0).
    destruct (refresh_by_rule self now windows Hprev Hne)
      as [k [Hch [Hk Ht]]].
    destruct Hch as [H1|[[_ [Hh H2]]|[[_ [_ H3]]|[_ [_ [H4 _]]]]]].
    + exfalso. exact (first_with_not_none _ _ _ H1 Hnat).
    + exfalso. exact (first_with_not_none _ _ _ H2 (Hhint Hh)).
    + apply marked_first in H3 as [w [Hw [_ [Hq [Hd Hleast]]]]].
      exists k, w. split; [exact Hw|]. split; [exact Hq|].
      split; [exact Hleast|].
      rewrite Ht, Hd. simpl. apply SelectionProps.zero_or_self.
    + pose proof (proj1 (marked_none _ _) H4) as Hall.
      rewrite (Hall w0 Hin0) in Hw0. discriminate.
  - intros Hnomark w0 rest ->.
    destruct (refresh_by_rule self now (w0 :: rest) Hprev)
      as [k [Hch [Hk Ht]]]; [discriminate|].
    assert (Hmark : none_with
                      (marked_at lower
                         (refilled (window_combo self) (w0 :: rest)))
                      (count (refilled (window_combo self) (w0 :: rest))))
      by (apply marked_none; exact Hnomark).
    destruct Hch as [H1|[[_ [Hh H2]]|[[_ [_ H3]]|[_ [_ [_ H4]]]]]].
    + exfalso. exact (first_with_not_none _ _ _ H1 Hnat).
    + exfalso. exact (first_with_not_none _ _ _ H2 (Hhint Hh)).
    + exfalso. exact (first_with_not_none _ _ _ H3 Hmark).
    + subst k. rewrite Ht, SelectionProps.refilled_itemData. simpl.
      apply SelectionProps.zero_or_self.
Qed.

(** X6. Selection is kept from one refresh to the next: when the target
    settled by a refresh is a window (nonzero) that a later snapshot still
    lists, a refresh over that snapshot settles on the same target. *)
Theorem refresh_then_refresh_keeps_target
  (self : MainWindow) (now now' : Q) (windows windows' : list (Z * string)) :
  let first := _refresh_windows lower self now windows in
  resolved_target first <> 0 ->
  In (resolved_target first) (map fst windows') ->
  resolved_target (_refresh_windows lower first now' windows')
  = resolved_target first.
Proof.
  cbv zeta. intros Hnz Hin.
  destruct (refresh_outcome self now windows) as [_ [Hprev _]].
  rewrite <- Hprev in Hnz, Hin |- *.
  destruct (refresh_with_selection _ now' windows' Hnz Hin)
    as [k [_ [_ ->]]].
  apply SelectionProps.target_after_set_target_hwnd.
Qed.

End WithLower.

Lemma refresh_restores_hinted_window_witness :
  exists (k : nat) (w : Z * string),
    nth_error MoreExamples.browser_windows k = Some w
    /\ contains "wiki" (ascii_lower (snd w)) = true
    /\ (forall (j : nat) (w' : Z * string),
          (j < k)%nat ->
          nth_error MoreExamples.browser_windows j = Some w' ->
          contains "wiki" (ascii_lower (snd w')) = false)
    /\ resolved_target
         (_refresh_windows ascii_lower
            (MoreExamples.fresh_window (Some "wiki"%string)) 1%Q
            MoreExamples.browser_windows) = fst w.
Proof.
  apply (refresh_restores_hinted_window ascii_lower
           (MoreExamples.fresh_window (Some "wiki"%string)) 1%Q
           MoreExamples.browser_windows).
  - left. reflexivity.
  - intros w [<-|[<-|[]]]; reflexivity.
  - discriminate.
  - exists (22, "Old School Wiki - Google Chrome"%string). split.
    + right. left. reflexivity.
    + reflexivity.
Defined.

(** No title has the marker and there is no hint: the first listed window
    is selected. *)
Lemma refresh_falls_back_to_marker_then_first_witness :
  resolved_target
    (_refresh_windows ascii_lower (MoreExamples.fresh_window None) 1%Q
       MoreExamples.browser_windows) = 21.
Proof.
  refine (proj2
            (refresh_falls_back_to_marker_then_first ascii_lower
               (MoreExamples.fresh_window None) 1%Q
               MoreExamples.browser_windows _ _ _)
            _ (21, "Inbox - Mozilla Firefox"%string) _ eq_refl).
  - left. reflexivity.
  - intros w [<-|[<-|[]]]; reflexivity.
  - left. reflexivity.
  - intros w [<-|[<-|[]]]; reflexivity.
Defined.

(** The selection 7 is gone, the first refresh settles on the game window
    1; a second refresh over the same snapshot keeps it. *)
Lemma refresh_then_refresh_keeps_target_witness :
  resolved_target
    (_refresh_windows ascii_lower
       (_refresh_windows ascii_lower Examples.closed_selected 40%Q
          Examples.sample_windows)
       50%Q Examples.sample_windows)
  = resolved_target
      (_refresh_windows ascii_lower Examples.closed_selected 40%Q
         Examples.sample_windows).
Proof.
  apply (refresh_then_refresh_keeps_target ascii_lower
           Examples.closed_selected 40%Q 50%Q
           Examples.sample_windows Examples.sample_windows).
  - vm_compute. discriminate.
  - vm_compute. left. reflexivity.
Defined.

End SelectionOrder.

(** ** More on the timer model *)

Module TimerOrder.
Import Timer.

Local Open Scope Q_scope.

Lemma py_max_monotone (a b c : Q) : b <= c -> py_max a b <= py_max a c.
Proof.
  intros Hbc. unfold py_max.
  destruct (Qle_bool b a) eqn:Eb; destruct (Qle_bool c a) eqn:Ec.
  - apply Qle_refl.
  - assert (H : ~ c <= a) by (rewrite <- Qle_bool_iff; congruence).
    apply Qnot_le_lt in H. now apply Qlt_le_weak.
  - apply Qle_bool_iff in Ec.
    assert (H : ~ b <= a) by (rewrite <- Qle_bool_iff; congruence).
    exfalso. apply H. now apply Qle_trans with c.
  - exact Hbc.
Qed.

Lemma py_max_of_nonneg (b : Q) : 0 <= b -> py_max 0 b == b.
Proof.
  intros Hb. unfold py_max.
  destruct (Qle_bool b 0) eqn:E; [|reflexivity].
  apply Qle_bool_iff in E. now apply Qle_antisym.
Qed.

Lemma remaining_seconds_value (t : ActivityTimer) (now : Q) :
  let r := inject_Z (length_seconds (config t)) - (now - _last_activity_ts t) in
  fst (remaining_seconds t now)
  = if count_below_zero (config t) then r else py_max 0 r.
Proof.
  cbv zeta. unfold remaining_seconds.
  now destruct (count_below_zero (config t)).
Qed.

(** X7. Without activity the countdown never goes up: of two reads of the
    same timer, the later one returns no more than the earlier one, with
    and without [count_below_zero]. *)
Theorem remaining_seconds_never_rises (t : ActivityTimer) (now1 now2 : Q) :
  now1 <= now2 ->
  fst (remaining_seconds t now2) <= fst (remaining_seconds t now1).
Proof.
  intros Hle. rewrite !remaining_seconds_value.
  destruct (count_below_zero (config t)).
  - lra.
  - apply py_max_monotone. lra.
Qed.

Lemma remaining_seconds_never_rises_witness :
  fst (remaining_seconds (set_count_below_zero (init 0) false) 95)
  <= fst (remaining_seconds (set_count_below_zero (init 0) false) 80).
Proof.
  apply (remaining_seconds_never_rises
           (set_count_below_zero (init 0) false) 80 95).
  discriminate.
Defined.

(** X8. After [note_activity()] at instant [T], whatever the timestamp was
    before, a read at [T'] returns [L - (T' - T)] with [count_below_zero]
    and [max(0, L - (T' - T))] without; with a length that is not negative,
    a read at [T] itself returns the full length [L] and a read at or after
    [T] never returns more than [L]. *)
Theorem note_activity_restarts_countdown
  (t : ActivityTimer) (T T' : Q) :
  let L := inject_Z (length_seconds (config t)) in
  let t' := note_activity t T in
  (count_below_zero (config t) = true ->
   fst (remaining_seconds t' T') = L - (T' - T))
  /\ (count_below_zero (config t) = false ->
      fst (remaining_seconds t' T') = py_max 0 (L - (T' - T)))
  /\ (0 <= L -> fst (remaining_seconds t' T) == L)
  /\ (0 <= L -> T <= T' -> fst (remaining_seconds t' T') <= L).
Proof.
  cbv zeta.
  split; [|split; [|split]].
  - intros Hflag. rewrite remaining_seconds_value. simpl. now rewrite Hflag.
  - intros Hflag. rewrite remaining_seconds_value. simpl. now rewrite Hflag.
  - intros HL. rewrite remaining_seconds_value. simpl.
    destruct (count_below_zero (config t)).
    + lra.
    + rewrite py_max_of_nonneg; lra.
  - intros HL HT. rewrite remaining_seconds_value. simpl.
    destruct (count_below_zero (config t)).
    + lra.
    + apply Qle_trans
        with (py_max 0 (inject_Z (length_seconds (config t)))).
      * apply py_max_monotone. lra.
      * rewrite py_max_of_nonneg by exact HL. apply Qle_refl.
Qed.

End TimerOrder.

(** ** More on the input hooks *)

Module HookFrame.
Import Timer Win32 Hooks HookTrace.

(** A callback leaves the state as it was or calls [note_activity()] once,
    at its own instant. *)
Lemma dispatch_outcome (fuel : nat) (d : Delivery) (st : HookState)
  (c : Completion) (st' : HookState) :
  dispatch fuel d st = Some (c, st') ->
  st' = st \/ st' = call_note_activity st (instant d).
Proof.
  unfold dispatch. destruct (event d) as [key|x y button pressed].
  - intros [= Hrun]. revert Hrun. unfold on_key_press.
    destruct (target_hwnd (timer st) =? 0); [intros [= _ <-]; now left|].
    destruct (get_foreground_window (desktop d)) as [fg|];
      [|intros [= _ <-]; now left].
    destruct (fg =? target_hwnd (timer st)); intros [= _ <-]; auto.
  - unfold on_click.
    destruct (negb pressed); [intros [= _ <-]; now left|].
    destruct (target_hwnd (timer st) =? 0); [intros [= _ <-]; now left|].
    destruct (WindowFromPoint (desktop d) (x, y)) as [w|];
      [|intros [= _ <-]; now left].
    destruct (hwnd_is_target_or_child _ _ _ _) as [[|]|];
      [intros [= _ <-]; now right|intros [= _ <-]; now left|discriminate].
Qed.

(** X9. Through any sequence of delivered events and [set_target_hwnd]
    calls, the callbacks write nothing but the timestamp: the configuration
    stays, the target is the one the last [set_target_hwnd] stored (the
    initial one when there is none), every call of [note_activity()] is
    made at the instant of a delivered event, and the timestamp at the end
    is that of the latest call, or the initial one when no call was made. *)
Theorem callbacks_write_only_the_timestamp
  (fuel : nat) (steps : list Step) (st st' : HookState) :
  run fuel steps st = Some st' ->
  config (timer st') = config (timer st)
  /\ target_hwnd (timer st') = last_target (target_hwnd (timer st)) steps
  /\ exists calls : list Q,
       activity_log st' = calls ++ activity_log st
       /\ incl calls (input_instants steps)
       /\ _last_activity_ts (timer st')
          = hd (_last_activity_ts (timer st)) calls.
Proof.
  revert st st'.
  induction steps as [|s steps IH]; intros st st' Hrun; simpl in Hrun.
  - injection Hrun as <-. split; [reflexivity|]. split; [reflexivity|].
    exists []. split; [reflexivity|]. split; [apply incl_nil_l|reflexivity].
  - destruct s as [d|h].
    + destruct (dispatch fuel d st) as [[c st1]|] eqn:Hd; [|discriminate].
      destruct (IH st1 st' Hrun) as [Hcfg [Htgt [calls [Hlog [Hincl Hts]]]]].
      destruct (dispatch_outcome fuel d st c st1 Hd) as [->| ->].
      * split; [exact Hcfg|]. split; [exact Htgt|].
        exists calls. split; [exact Hlog|]. split; [|exact Hts].
        simpl. now apply incl_tl.
      * split; [exact Hcfg|]. split; [exact Htgt|].
        exists (calls ++ [instant d]). simpl in Hlog, Hts.
        split; [now rewrite <- app_assoc|].
        split.
        -- apply incl_app; [now apply incl_tl|].
           intros q [<-|[]]. now left.
        -- rewrite Hts. now destruct calls.
    + destruct (IH _ st' Hrun) as [Hcfg [Htgt [calls [Hlog [Hincl Hts]]]]].
      simpl in Hcfg, Htgt, Hlog, Hts.
      split; [exact Hcfg|].
      split; [rewrite Htgt; simpl; now rewrite SelectionProps.zero_or_self|].
      exists calls. split; [exact Hlog|]. split; [exact Hincl|exact Hts].
Qed.

(** A callback that an exception leaves has changed nothing. *)
Lemma dispatch_propagated (fuel : nat) (d : Delivery) (st st' : HookState) :
  dispatch fuel d st = Some (Propagated, st') -> st' = st.
Proof.
  unfold dispatch. destruct (event d) as [key|x y button pressed].
  - unfold on_key_press.
    destruct (target_hwnd (timer st) =? 0); [discriminate|].
    destruct (get_foreground_window (desktop d)) as [fg|].
    + destruct (fg =? target_hwnd (timer st)); discriminate.
    + intros H. now inversion H.
  - unfold on_click.
    destruct (negb pressed); [discriminate|].
    destruct (target_hwnd (timer st) =? 0); [discriminate|].
    destruct (WindowFromPoint (desktop d) (x, y)) as [w|]; [|discriminate].
    destruct (hwnd_is_target_or_child _ _ _ _) as [[|]|]; discriminate.
Qed.

(** X21. An event that is attributed to the target restarts the countdown:
    when a delivered key press or mouse press makes its callback call
    [note_activity()], the timestamp is the instant of the event, a read at
    that instant returns the full length (for a length that is not
    negative), and a later read with [count_below_zero] returns the length
    minus the time since the event. *)
Theorem attributed_event_restarts_countdown
  (fuel : nat) (d : Delivery) (st st' : HookState) (c : Completion) :
  dispatch fuel d st = Some (c, st') ->
  activity_log st' <> activity_log st ->
  let L := inject_Z (length_seconds (config (timer st))) in
  c = Returned
  /\ _last_activity_ts (timer st') = instant d
  /\ (0 <= L ->
      fst (remaining_seconds (timer st') (instant d)) == L)%Q
  /\ (forall T' : Q,
        count_below_zero (config (timer st)) = true ->
        fst (remaining_seconds (timer st') T')
        = (L - (T' - instant d))%Q).
Proof.
  intros Hd Hlog. cbv zeta.
  assert (Hc : c = Returned).
  { destruct c; [reflexivity|].
    apply dispatch_propagated in Hd. subst st'. contradiction. }
  destruct (dispatch_outcome fuel d st c st' Hd) as [->| ->];
    [contradiction|].
  split; [exact Hc|]. split; [reflexivity|].
  split.
  - intros HL. rewrite TimerOrder.remaining_seconds_value. simpl.
    destruct (count_below_zero (config (timer st))).
    + lra.
    + rewrite TimerOrder.py_max_of_nonneg; lra.
  - intros T' Hflag. rewrite TimerOrder.remaining_seconds_value. simpl.
    now rewrite Hflag.
Qed.

(** The key press of the sample run, delivered at instant 5. *)
Lemma attributed_event_restarts_countdown_witness :
  Returned = Returned
  /\ _last_activity_ts
       (timer (call_note_activity Examples.sample_state 5%Q)) = 5%Q
  /\ (0 <= inject_Z
             (length_seconds (config (timer Examples.sample_state))) ->
      fst (remaining_seconds
             (timer (call_note_activity Examples.sample_state 5%Q)) 5%Q)
      == inject_Z
           (length_seconds (config (timer Examples.sample_state))))%Q
  /\ (forall T' : Q,
        count_below_zero (config (timer Examples.sample_state)) = true ->
        fst (remaining_seconds
               (timer (call_note_activity Examples.sample_state 5%Q)) T')
        = (inject_Z
             (length_seconds (config (timer Examples.sample_state)))
           - (T' - 5))%Q).
Proof.
  apply (attributed_event_restarts_countdown 5
           {| desktop := Examples.sample_desktop; instant := 5%Q;
              event := KeyPress 65 |}
           Examples.sample_state
           (call_note_activity Examples.sample_state 5%Q) Returned).
  - reflexivity.
  - discriminate.
Defined.

Lemma callbacks_write_only_the_timestamp_witness :
  config (timer MoreExamples.busy_result)
  = config (timer Examples.sample_state)
  /\ target_hwnd (timer MoreExamples.busy_result)
     = last_target (target_hwnd (timer Examples.sample_state))
         MoreExamples.busy_steps
  /\ exists calls : list Q,
       activity_log MoreExamples.busy_result
       = calls ++ activity_log Examples.sample_state
       /\ incl calls (input_instants MoreExamples.busy_steps)
       /\ _last_activity_ts (timer MoreExamples.busy_result)
          = hd (_last_activity_ts (timer Examples.sample_state)) calls.
Proof.
  apply (callbacks_write_only_the_timestamp 5 MoreExamples.busy_steps
           Examples.sample_state MoreExamples.busy_result).
  reflexivity.
Defined.

End HookFrame.

(** ** Time formatting *)

Module FormatProps.
Import Timer Display.

Local Open Scope Q_scope.

Lemma qlt_true (a b : Q) : qlt a b = true <-> a < b.
Proof.
  unfold qlt. rewrite negb_true_iff. split.
  - intros H. apply Qnot_le_lt. rewrite <- Qle_bool_iff. congruence.
  - intros H. destruct (Qle_bool b a) eqn:E; [|reflexivity].
    apply Qle_bool_iff in E. exfalso. now apply (Qlt_not_le a b).
Qed.

Lemma qlt_false (a b : Q) : qlt a b = false <-> b <= a.
Proof.
  unfold qlt. rewrite negb_false_iff. apply Qle_bool_iff.
Qed.

Lemma inject_Z_pred (z : Z) : inject_Z (z - 1) == inject_Z z - 1.
Proof. unfold Z.sub. rewrite inject_Z_plus. reflexivity. Qed.

Lemma inject_Z_pos_lt (z : Z) : 0 < inject_Z z -> (0 < z)%Z.
Proof. intros H. rewrite Zlt_Qlt. exact H. Qed.

Lemma quantize_positive (x : Q) :
  0 < x ->
  _quantize_seconds_for_display x = Qceiling x
  /\ x <= inject_Z (Qceiling x) /\ inject_Z (Qceiling x) - 1 < x
  /\ (1 <= Qceiling x)%Z.
Proof.
  intros Hx. unfold _quantize_seconds_for_display.
  apply qlt_true in Hx. rewrite Hx. apply qlt_true in Hx.
  pose proof (Qle_ceiling x) as Hup.
  pose proof (Qceiling_lt x) as Hlow.
  rewrite inject_Z_pred in Hlow.
  repeat split; auto.
  assert (H0 : 0 < inject_Z (Qceiling x)) by lra.
  apply inject_Z_pos_lt in H0. lia.
Qed.

Lemma quantize_negative (x : Q) :
  x < 0 ->
  _quantize_seconds_for_display x = (- Qceiling (- x))%Z
  /\ inject_Z (- Qceiling (- x)) <= x
  /\ x < inject_Z (- Qceiling (- x)) + 1
  /\ (- Qceiling (- x) <= -1)%Z.
Proof.
  intros Hx. unfold _quantize_seconds_for_display.
  assert (H0 : qlt 0 x = false) by (apply qlt_false; lra).
  rewrite H0. apply qlt_true in Hx. rewrite Hx. apply qlt_true in Hx.
  assert (Habs : Qabs x == - x) by (apply Qabs_neg; lra).
  rewrite (Qceiling_comp _ _ Habs).
  pose proof (Qle_ceiling (- x)) as Hup.
  pose proof (Qceiling_lt (- x)) as Hlow.
  rewrite inject_Z_pred in Hlow. rewrite inject_Z_opp.
  repeat split; try lra.
  assert (Hp : 0 < inject_Z (Qceiling (- x))) by lra.
  apply inject_Z_pos_lt in Hp. lia.
Qed.

Lemma quantize_zero (x : Q) :
  x == 0 -> _quantize_seconds_for_display x = 0%Z.
Proof.
  intros Hx. unfold _quantize_seconds_for_display.
  assert (H0 : qlt 0 x = false) by (apply qlt_false; lra).
  assert (H1 : qlt x 0 = false) by (apply qlt_false; lra).
  now rewrite H0, H1.
Qed.

Lemma sign_cases (x : Q) : 0 < x \/ x < 0 \/ x == 0.
Proof.
  destruct (Q_dec x 0) as [[H|H]|H]; auto.
Qed.

(** X10. [_quantize_seconds_for_display] rounds away from zero to a whole
    number of seconds: a positive value goes up to the next integer, a
    negative one down, so the result has the sign of the value, is zero
    only for zero (a running countdown never shows 0, an overrun never
    shows -0), is less than one second away, and negating the value negates
    the result. *)
Theorem quantize_rounds_away_from_zero (x : Q) :
  let q := _quantize_seconds_for_display x in
  (0 < x -> (1 <= q)%Z /\ x <= inject_Z q /\ inject_Z q < x + 1)
  /\ (x < 0 -> (q <= -1)%Z /\ inject_Z q <= x /\ x - 1 < inject_Z q)
  /\ (q = 0%Z <-> x == 0)
  /\ _quantize_seconds_for_display (- x) = (- q)%Z.
Proof.
  cbv zeta.
  split; [|split; [|split]].
  - intros Hx. destruct (quantize_positive x Hx) as [-> [H1 [H2 H3]]].
    repeat split; auto. lra.
  - intros Hx. destruct (quantize_negative x Hx) as [-> [H1 [H2 H3]]].
    repeat split; auto. lra.
  - split.
    + intros Hq. destruct (sign_cases x) as [Hx|[Hx|Hx]]; [| |exact Hx].
      * destruct (quantize_positive x Hx) as [E [_ [_ H3]]].
        rewrite E in Hq. lia.
      * destruct (quantize_negative x Hx) as [E [_ [_ H3]]].
        rewrite E in Hq. lia.
    + apply quantize_zero.
  - destruct (sign_cases x) as [Hx|[Hx|Hx]].
    + destruct (quantize_positive x Hx) as [-> _].
      assert (Hn : - x < 0) by lra.
      destruct (quantize_negative (- x) Hn) as [-> _].
      now rewrite (Qceiling_comp _ _ (Qopp_involutive x)).
    + destruct (quantize_negative x Hx) as [-> _].
      assert (Hp : 0 < - x) by lra.
      destruct (quantize_positive (- x) Hp) as [-> _]. lia.
    + rewrite (quantize_zero x Hx).
      assert (Hz : - x == 0) by lra.
      now rewrite (quantize_zero (- x) Hz).
Qed.

(** *** Decimal text *)

Lemma NilEmpty_length (d : Decimal.uint) :
  String.length (NilEmpty.string_of_uint d) = Decimal.nb_digits d.
Proof. induction d; simpl; congruence. Qed.

Lemma NilEmpty_no_minus (d : Decimal.uint) :
  starts_with_minus (NilEmpty.string_of_uint d) = false.
Proof. destruct d; reflexivity. Qed.

Lemma to_uint_nonnil (n : N) : N.to_uint n <> Decimal.Nil.
Proof.
  destruct n as [|p]; [discriminate|].
  apply DecimalPos.Unsigned.to_uint_nonnil.
Qed.

Lemma py_str_length (n : Z) :
  String.length (py_str n) = Decimal.nb_digits (N.to_uint (Z.to_N n)).
Proof.
  unfold py_str. pose proof (to_uint_nonnil (Z.to_N n)) as Hnn.
  destruct (N.to_uint (Z.to_N n)) eqn:E; try congruence;
    unfold NilZero.string_of_uint; apply NilEmpty_length.
Qed.

Lemma py_str_no_minus (n : Z) : starts_with_minus (py_str n) = false.
Proof.
  unfold py_str, NilZero.string_of_uint.
  destruct (N.to_uint (Z.to_N n)); reflexivity.
Qed.

Lemma two_digits_small (d : Decimal.uint) :
  (Decimal.nb_digits d <= 2)%nat -> (N.of_uint d < 100)%N.
Proof.
  intros H.
  destruct d as [|d|d|d|d|d|d|d|d|d|d]; [reflexivity|..];
    (destruct d as [|d|d|d|d|d|d|d|d|d|d]; [reflexivity|..]);
    (destruct d; [reflexivity|simpl in H; lia..]).
Qed.

Lemma checked_below (P : N -> bool) (k : nat) :
  forallb P (map N.of_nat (seq 0 k)) = true ->
  forall n : N, (n < N.of_nat k)%N -> P n = true.
Proof.
  intros Hall n Hn. rewrite forallb_forall in Hall. apply Hall.
  rewrite <- (N2Nat.id n). apply in_map. apply in_seq. lia.
Qed.

Lemma py_str_length_below_100 (n : Z) :
  (0 <= n < 100)%Z ->
  String.length (py_str n) = if (n <? 10)%Z then 1%nat else 2%nat.
Proof.
  intros Hn.
  assert (Hall : forallb
                   (fun m => (String.length (py_str (Z.of_N m))
                              =? (if (Z.of_N m <? 10)%Z then 1 else 2))%nat)
                   (map N.of_nat (seq 0 100)) = true)
    by (vm_compute; reflexivity).
  pose proof (checked_below _ 100 Hall (Z.to_N n)) as Hchk.
  cbv beta in Hchk. rewrite Z2N.id in Hchk by lia.
  apply Nat.eqb_eq. apply Hchk. lia.
Qed.

Lemma py_str_length_from_100 (n : Z) :
  (100 <= n)%Z -> (3 <= String.length (py_str n))%nat.
Proof.
  intros Hn. rewrite py_str_length.
  destruct (Nat.le_gt_cases (Decimal.nb_digits (N.to_uint (Z.to_N n))) 2)
    as [Hle|Hgt]; [|lia].
  apply two_digits_small in Hle.
  rewrite DecimalN.Unsigned.of_to in Hle. lia.
Qed.

Lemma py_02d_length (n : Z) :
  (0 <= n)%Z ->
  ((n < 100)%Z -> String.length (py_02d n) = 2%nat)
  /\ ((100 <= n)%Z -> (3 <= String.length (py_02d n))%nat).
Proof.
  intros Hn. unfold py_02d. split.
  - intros Hlt. rewrite py_str_length_below_100 by lia.
    destruct (n <? 10)%Z eqn:E; simpl.
    + now rewrite py_str_length_below_100, E by lia.
    + now rewrite py_str_length_below_100, E by lia.
  - intros Hge. pose proof (py_str_length_from_100 n Hge) as H3.
    destruct (String.length (py_str n) <? 2)%nat eqn:E.
    + apply Nat.ltb_lt in E. lia.
    + exact H3.
Qed.

Lemma py_02d_no_minus (n : Z) : starts_with_minus (py_02d n) = false.
Proof.
  unfold py_02d. destruct (String.length (py_str n) <? 2)%nat.
  - reflexivity.
  - apply py_str_no_minus.
Qed.

Lemma length_append (a b : string) :
  String.length (a ++ b) = (String.length a + String.length b)%nat.
Proof. induction a as [|c a IH]; simpl; congruence. Qed.

Lemma starts_with_minus_append (a b : string) :
  a <> EmptyString ->
  starts_with_minus (a ++ b) = starts_with_minus a.
Proof. destruct a; [congruence|reflexivity]. Qed.

(** *** [_format_time] *)

Lemma negative_flag (x : Q) :
  qlt x 0 = (_quantize_seconds_for_display x <? 0)%Z.
Proof.
  destruct (sign_cases x) as [Hx|[Hx|Hx]].
  - destruct (quantize_positive x Hx) as [-> [_ [_ H1]]].
    assert (E : qlt x 0 = false) by (apply qlt_false; lra).
    rewrite E. symmetry. apply Z.ltb_ge. lia.
  - destruct (quantize_negative x Hx) as [-> [_ [_ H1]]].
    assert (E : qlt x 0 = true) by (now apply qlt_true).
    rewrite E. symmetry. apply Z.ltb_lt. lia.
  - rewrite (quantize_zero x Hx).
    apply qlt_false. lra.
Qed.

Lemma signed_text (q : Z) :
  (if (q <? 0)%Z then String "-" (py_str (Z.abs q)) else py_str (Z.abs q))
  = NilZero.string_of_int (Z.to_int q).
Proof. destruct q; reflexivity. Qed.

Lemma to_int_proper (q : Z) :
  Z.to_int q <> Decimal.Pos Decimal.Nil
  /\ Z.to_int q <> Decimal.Neg Decimal.Nil.
Proof.
  destruct q as [|p|p]; simpl; split; try discriminate;
    intros [= H]; now apply (DecimalPos.Unsigned.to_uint_nonnil p).
Qed.

Lemma format_time_90 (t : ActivityTimer) (x : Q) :
  length_seconds (config t) = 90%Z ->
  _format_time t x
  = (NilZero.string_of_int (Z.to_int (_quantize_seconds_for_display x)),
     Z.max 3
       (py_len
          (NilZero.string_of_int
             (Z.to_int (_quantize_seconds_for_display x))))).
Proof.
  intros H90. unfold _format_time. rewrite H90. simpl Z.eqb. cbv iota zeta.
  now rewrite negative_flag, signed_text.
Qed.

(** X11. In the 90-second mode the text of [_format_time] is the decimal
    numeral of the quantized seconds: read back as an integer it gives
    [_quantize_seconds_for_display(seconds)], sign included. *)
Theorem format_time_90_reads_back (t : ActivityTimer) (x : Q) :
  length_seconds (config t) = 90%Z ->
  option_map Z.of_int (NilZero.int_of_string (fst (_format_time t x)))
  = Some (_quantize_seconds_for_display x).
Proof.
  intros H90. rewrite (format_time_90 t x H90). simpl fst.
  destruct (to_int_proper (_quantize_seconds_for_display x)) as [Hp Hn].
  rewrite (NilZero.isi _ Hp Hn). simpl.
  now rewrite DecimalZ.of_to.
Qed.

Lemma format_time_90_reads_back_witness :
  option_map Z.of_int
    (NilZero.int_of_string (fst (_format_time (init 0) (- (37 # 10)))))
  = Some (_quantize_seconds_for_display (- (37 # 10))).
Proof.
  apply (format_time_90_reads_back (init 0) (- (37 # 10))).
  reflexivity.
Defined.

Lemma format_time_minutes (t : ActivityTimer) (x : Q) :
  length_seconds (config t) <> 90%Z ->
  let a := Z.abs (_quantize_seconds_for_display x) in
  let out := (py_02d (a / 60) ++ ":" ++ py_02d (a mod 60))%string in
  _format_time t x
  = if qlt x 0 then (String "-" out, 6%Z) else (out, 5%Z).
Proof.
  intros H90. cbv zeta. unfold _format_time.
  apply Z.eqb_neq in H90. now rewrite H90.
Qed.

Lemma minutes_text_length (a : Z) :
  (0 <= a)%Z ->
  let out := (py_02d (a / 60) ++ ":" ++ py_02d (a mod 60))%string in
  ((a < 6000)%Z -> String.length out = 5%nat)
  /\ ((6000 <= a)%Z -> (6 <= String.length out)%nat).
Proof.
  intros Ha. cbv zeta. rewrite !length_append. simpl String.length.
  assert (Hss : (0 <= a mod 60 < 60)%Z) by (apply Z.mod_pos_bound; lia).
  assert (Hmm : (0 <= a / 60)%Z) by (apply Z.div_pos; lia).
  destruct (py_02d_length (a mod 60)) as [Hs _]; [lia|].
  rewrite Hs by lia.
  destruct (py_02d_length (a / 60) Hmm) as [Hm2 Hm3].
  split; intros Hb.
  - rewrite Hm2; [reflexivity|].
    apply Z.div_lt_upper_bound; lia.
  - assert (H100 : (100 <= a / 60)%Z)
      by (apply Z.div_le_lower_bound; lia).
    specialize (Hm3 H100). lia.
Qed.

Lemma py_02d_nonempty (n : Z) : py_02d n <> EmptyString.
Proof.
  unfold py_02d. destruct (String.length (py_str n) <? 2)%nat eqn:E;
    [discriminate|].
  intros Habs. rewrite Habs in E. discriminate.
Qed.

(** The digit count a caller recomputes from the text and the mode. *)
Lemma format_time_digits_from_text (t : ActivityTimer) (x : Q) :
  (if (length_seconds (config t) =? 90)%Z
   then Z.max 3 (snd (_format_time t x))
   else if starts_with_minus (fst (_format_time t x)) then 6%Z else 5%Z)
  = snd (_format_time t x).
Proof.
  destruct (Z.eqb_spec (length_seconds (config t)) 90) as [H90|H90].
  - rewrite (format_time_90 t x H90). simpl. lia.
  - pose proof (format_time_minutes t x H90) as E. cbv zeta in E.
    rewrite E. destruct (qlt x 0); simpl; [reflexivity|].
    rewrite starts_with_minus_append by apply py_02d_nonempty.
    now rewrite py_02d_no_minus.
Qed.

(** X12. The digit count of [_format_time] against its text.  The text
    starts with a minus sign exactly for negative seconds.  In the
    90-second mode the count is [max(3, len(text))], so the text always
    fits.  In the minutes mode the count is 5, or 6 for negative seconds,
    and the text [mm:ss] has exactly that many characters as long as the
    quantized value is below 6000 seconds; from 100 minutes on the text is
    longer than the digit count. *)
Theorem format_time_digit_count (t : ActivityTimer) (x : Q) :
  let text := fst (_format_time t x) in
  let digits := snd (_format_time t x) in
  let a := Z.abs (_quantize_seconds_for_display x) in
  starts_with_minus text = qlt x 0
  /\ (length_seconds (config t) = 90%Z ->
      digits = Z.max 3 (py_len text) /\ (py_len text <= digits)%Z)
  /\ (length_seconds (config t) <> 90%Z ->
      digits = (if qlt x 0 then 6%Z else 5%Z)
      /\ ((a < 6000)%Z -> py_len text = digits)
      /\ ((6000 <= a)%Z -> (digits < py_len text)%Z)).
Proof.
  cbv zeta.
  destruct (Z.eq_dec (length_seconds (config t)) 90) as [H90|H90].
  - split; [|split; [|contradiction]].
    + unfold _format_time. rewrite H90. simpl Z.eqb. cbv iota zeta.
      simpl fst. destruct (qlt x 0); [reflexivity|apply py_str_no_minus].
    + intros _. rewrite (format_time_90 t x H90). simpl. split; lia.
  - pose proof (format_time_minutes t x H90) as E. cbv zeta in E.
    pose proof (minutes_text_length
                  (Z.abs (_quantize_seconds_for_display x))
                  (Z.abs_nonneg _)) as [H5 H6].
    cbv zeta in H5, H6.
    rewrite E.
    split; [|split; [contradiction|]].
    + destruct (qlt x 0); simpl; [reflexivity|].
      rewrite starts_with_minus_append by apply py_02d_nonempty.
      apply py_02d_no_minus.
    + intros _. destruct (qlt x 0); unfold py_len;
        cbn [fst snd String.length].
      * split; [reflexivity|]. split; intros Hb.
        -- rewrite (H5 Hb). reflexivity.
        -- specialize (H6 Hb). lia.
      * split; [reflexivity|]. split; intros Hb.
        -- rewrite (H5 Hb). reflexivity.
        -- specialize (H6 Hb). lia.
Qed.

End FormatProps.

(** ** The UI tick and the threshold sound *)

Module TickProps.
Import Timer Win32 Display.

Local Open Scope Q_scope.

Lemma same_countdown_remaining (t t' : ActivityTimer) (now : Q) :
  same_countdown t t' ->
  fst (remaining_seconds t' now) = fst (remaining_seconds t now).
Proof.
  intros [HL [Hf [_ [_ [Hts _]]]]]. unfold remaining_seconds.
  now rewrite HL, Hf, Hts.
Qed.

Lemma tick_sound_view (self : MainWindowUi) (now : Q) :
  let r := fst (remaining_seconds (timer_model self) now) in
  let armed := jumped self r || negb (_sound_fired self) in
  let fires := armed && crossed self r in
  _last_remaining (_tick_ui self now) = Some r
  /\ same_countdown (timer_model self) (timer_model (_tick_ui self now))
  /\ can_play (_sound (_tick_ui self now)) = can_play (_sound self)
  /\ _sound_fired (_tick_ui self now) = (fires || negb armed)
  /\ play_count (_sound (_tick_ui self now))
     = (play_count (_sound self)
        + if fires && can_play (_sound self) then 1 else 0)%nat.
Proof.
  cbv zeta. unfold jumped, crossed, can_play, same_countdown.
  destruct self as [tm [src svr pr vol cnt] fired last lcd vis olcd btn].
  unfold _tick_ui.
  cbn -[remaining_seconds _format_time Qle_bool qlt inject_Z Qplus].
  set (r := fst (remaining_seconds tm now)).
  set (thr := inject_Z (sound_threshold_seconds (config tm))).
  destruct last as [last|];
    [destruct (qlt (last + (3 # 4)) r)|];
    destruct fired;
    cbn -[remaining_seconds _format_time Qle_bool qlt inject_Z Qplus];
    fold thr;
    try (destruct (qlt thr last && Qle_bool r thr));
    unfold _play_sound_once;
    cbn -[remaining_seconds _format_time Qle_bool qlt inject_Z Qplus];
    destruct src as [[|]|]; destruct pr; destruct svr;
    cbn -[remaining_seconds _format_time Qle_bool qlt inject_Z Qplus];
    destruct (_format_time _ r) as [text digits];
    cbn -[remaining_seconds _format_time Qle_bool qlt inject_Z Qplus];
    repeat split; auto; lia.
Qed.

Lemma crossed_true (self : MainWindowUi) (r : Q) :
  crossed self r = true ->
  exists last : Q,
    _last_remaining self = Some last
    /\ inject_Z (sound_threshold_seconds (config (timer_model self))) < last
    /\ r <= inject_Z (sound_threshold_seconds (config (timer_model self))).
Proof.
  unfold crossed. destruct (_last_remaining self) as [last|]; [|discriminate].
  intros H. apply andb_prop in H as [H1 H2].
  exists last. split; [reflexivity|].
  split; [now apply FormatProps.qlt_true|now apply Qle_bool_iff].
Qed.

(** A jump upwards and a crossing downwards exclude each other. *)
Lemma jumped_not_crossed (self : MainWindowUi) (r : Q) :
  jumped self r = true -> crossed self r = false.
Proof.
  intros Hj. destruct (crossed self r) eqn:Hc; [|reflexivity].
  apply crossed_true in Hc as [last [El [H1 H2]]].
  unfold jumped in Hj. rewrite El in Hj.
  apply FormatProps.qlt_true in Hj. lra.
Qed.

(** X13. A tick plays the sound only on a downward crossing with the sound
    armed beforehand: if [play()] goes through during a tick, then
    [_sound_fired] was false before the tick, the remaining time of the
    previous tick was above the sound threshold and the one read now is at
    or below it; the play count goes up by one and [_sound_fired] is set.
    In particular a tick that rearms (a jump of more than 0.75 s upwards)
    does not play, and neither does the first tick. *)
Theorem tick_plays_only_on_crossing (self : MainWindowUi) (now : Q) :
  let r := fst (remaining_seconds (timer_model self) now) in
  let thr :=
    inject_Z (sound_threshold_seconds (config (timer_model self))) in
  play_count (_sound (_tick_ui self now)) <> play_count (_sound self) ->
  _sound_fired self = false
  /\ (exists last : Q,
        _last_remaining self = Some last /\ thr < last /\ r <= thr)
  /\ play_count (_sound (_tick_ui self now))
     = S (play_count (_sound self))
  /\ _sound_fired (_tick_ui self now) = true.
Proof.
  cbv zeta. intros Hplay.
  destruct (tick_sound_view self now) as [_ [_ [_ [Hfired Hcount]]]].
  cbv zeta in Hfired, Hcount.
  set (r := fst (remaining_seconds (timer_model self) now)) in *.
  destruct (crossed self r) eqn:Hc.
  2:{ rewrite andb_false_r in Hcount. simpl in Hcount.
      rewrite Nat.add_0_r in Hcount. contradiction. }
  destruct (jumped self r) eqn:Hj.
  { apply jumped_not_crossed in Hj. congruence. }
  simpl in Hfired, Hcount.
  destruct (_sound_fired self) eqn:Hf; simpl in Hfired, Hcount.
  { rewrite Nat.add_0_r in Hcount. contradiction. }
  destruct (can_play (_sound self)).
  2:{ rewrite Nat.add_0_r in Hcount. contradiction. }
  split; [reflexivity|]. split; [now apply crossed_true|].
  split; [rewrite Hcount; lia|exact Hfired].
Qed.

(** Idle ticks from a state whose last reading is the remaining time at
    [now0]: the sound plays at most once, and not at all once fired. *)
Lemma idle_ticks_play_once :
  forall (nows : list Q) (self : MainWindowUi) (now0 : Q),
    _last_remaining self
    = Some (fst (remaining_seconds (timer_model self) now0)) ->
    nondecreasing (now0 :: nows) ->
    (play_count (_sound (ticks self nows))
     <= play_count (_sound self)
        + if _sound_fired self then 0 else 1)%nat.
Proof.
  induction nows as [|now1 rest IH]; intros self now0 Hlast Hnd.
  - simpl. lia.
  - destruct Hnd as [Hle Hnd]. unfold ticks. simpl.
    fold (ticks (_tick_ui self now1) rest).
    destruct (tick_sound_view self now1)
      as [Hlast1 [Hsame [_ [Hfired Hcount]]]].
    cbv zeta in Hlast1, Hfired, Hcount.
    assert (Hnojump :
              jumped self (fst (remaining_seconds (timer_model self) now1))
              = false).
    { unfold jumped. rewrite Hlast. apply FormatProps.qlt_false.
      rewrite !TimerOrder.remaining_seconds_value.
      destruct (count_below_zero (config (timer_model self))).
      - lra.
      - pose proof (TimerOrder.py_max_monotone 0
                      (inject_Z (length_seconds (config (timer_model self)))
                       - (now1 - _last_activity_ts (timer_model self)))
                      (inject_Z (length_seconds (config (timer_model self)))
                       - (now0 - _last_activity_ts (timer_model self)))).
        lra. }
    rewrite Hnojump in Hfired, Hcount. simpl in Hfired, Hcount.
    assert (Hsync : _last_remaining (_tick_ui self now1)
                    = Some (fst (remaining_seconds
                                   (timer_model (_tick_ui self now1)) now1)))
      by (rewrite (same_countdown_remaining _ _ now1 Hsame); exact Hlast1).
    specialize (IH (_tick_ui self now1) now1 Hsync Hnd).
    rewrite Hfired, Hcount in IH.
    destruct (_sound_fired self); simpl in IH |- *.
    + lia.
    + destruct (crossed self _); simpl in IH;
        [destruct (can_play (_sound self))|]; lia.
Qed.

(** X14. While nothing but the tick touches the window (no activity, no
    handler), the threshold sound plays at most once: over ticks at
    instants that do not go back in time, from any state, [play()] goes
    through at most one time. *)
Theorem idle_ticks_play_at_most_once
  (self : MainWindowUi) (nows : list Q) :
  nondecreasing nows ->
  (play_count (_sound self) <= play_count (_sound (ticks self nows))
   <= play_count (_sound self) + 1)%nat.
Proof.
  intros Hnd.
  assert (Hmono : forall (l : list Q) (s : MainWindowUi),
             (play_count (_sound s)
              <= play_count (_sound (ticks s l)))%nat).
  { induction l as [|a l IHl]; intros s0; [simpl; lia|].
    unfold ticks. simpl. fold (ticks (_tick_ui s0 a) l).
    destruct (tick_sound_view s0 a) as [_ [_ [_ [_ Hc]]]].
    specialize (IHl (_tick_ui s0 a)). lia. }
  split; [apply Hmono|].
  destruct nows as [|now1 rest]; [simpl; lia|].
  unfold ticks. simpl. fold (ticks (_tick_ui self now1) rest).
  destruct (tick_sound_view self now1)
    as [Hlast1 [Hsame [_ [Hfired Hcount]]]].
  cbv zeta in Hlast1, Hfired, Hcount.
  assert (Hsync : _last_remaining (_tick_ui self now1)
                  = Some (fst (remaining_seconds
                                 (timer_model (_tick_ui self now1)) now1)))
    by (rewrite (same_countdown_remaining _ _ now1 Hsame); exact Hlast1).
  pose proof (idle_ticks_play_once rest (_tick_ui self now1) now1 Hsync Hnd)
    as Hrest.
  rewrite Hfired, Hcount in Hrest.
  destruct ((jumped self _ || negb (_sound_fired self)) && crossed self _);
    simpl in Hrest.
  - destruct (can_play (_sound self)); lia.
  - destruct (negb (jumped self _ || negb (_sound_fired self))); lia.
Qed.

(** The tick that reads 14.5 s after 16 s, the threshold being 15. *)
Lemma tick_plays_only_on_crossing_witness :
  _sound_fired MoreExamples.armed_ui = false
  /\ (exists last : Q,
        _last_remaining MoreExamples.armed_ui = Some last
        /\ inject_Z
             (sound_threshold_seconds
                (config (timer_model MoreExamples.armed_ui))) < last
        /\ fst (remaining_seconds (timer_model MoreExamples.armed_ui)
                  (151 # 2))
           <= inject_Z
                (sound_threshold_seconds
                   (config (timer_model MoreExamples.armed_ui))))
  /\ play_count (_sound (_tick_ui MoreExamples.armed_ui (151 # 2)))
     = S (play_count (_sound MoreExamples.armed_ui))
  /\ _sound_fired (_tick_ui MoreExamples.armed_ui (151 # 2)) = true.
Proof.
  apply (tick_plays_only_on_crossing MoreExamples.armed_ui (151 # 2)).
  vm_compute. discriminate.
Defined.

(** Ticks at 74 s, 75.5 s, 76 s and 80 s: the sound plays at the second
    one only. *)
Lemma idle_ticks_play_at_most_once_witness :
  (play_count (_sound MoreExamples.armed_ui)
   <= play_count
        (_sound (ticks MoreExamples.armed_ui MoreExamples.idle_instants))
   <= play_count (_sound MoreExamples.armed_ui) + 1)%nat.
Proof.
  apply (idle_ticks_play_at_most_once MoreExamples.armed_ui
           MoreExamples.idle_instants).
  simpl. repeat split; discriminate.
Defined.

Example sample_ticks_play_once :
  play_count
    (_sound (ticks MoreExamples.armed_ui MoreExamples.idle_instants))
  = 1%nat.
Proof. vm_compute. reflexivity. Qed.

(** Activity at 100 s rearms the sound: the countdown jumps back up, the
    next crossing plays again. *)
Example activity_rearms_the_sound :
  let after_idle :=
    ticks MoreExamples.armed_ui MoreExamples.idle_instants in
  let after_activity :=
    {| timer_model := note_activity (timer_model after_idle) 100;
       _sound := _sound after_idle;
       _sound_fired := _sound_fired after_idle;
       _last_remaining := _last_remaining after_idle;
       timer_display := timer_display after_idle;
       overlay_isVisible := overlay_isVisible after_idle;
       overlay_display := overlay_display after_idle;
       volume_reset_btn_text := volume_reset_btn_text after_idle |} in
  _sound_fired after_idle = true
  /\ _sound_fired (_tick_ui after_activity 101) = false
  /\ play_count
       (_sound (ticks after_activity [101%Q; 174%Q; 176%Q])) = 2%nat.
Proof. vm_compute. repeat split; reflexivity. Qed.

Lemma format_time_with_volume (t : ActivityTimer) (v r : Q) :
  _format_time (with_volume t v) r = _format_time t r.
Proof. reflexivity. Qed.

Lemma tick_display_view (self : MainWindowUi) (now : Q) :
  let r := fst (remaining_seconds (timer_model self) now) in
  let text := fst (_format_time (timer_model self) r) in
  let digits := snd (_format_time (timer_model self) r) in
  let lcd :=
    {| digitCount :=
         if (length_seconds (config (timer_model self)) =? 90)%Z
         then Z.max 3 digits
         else if starts_with_minus text then 6%Z else 5%Z;
       shown := text;
       danger_colour :=
         Qle_bool r
           (inject_Z (threshold_seconds (config (timer_model self)))) |} in
  timer_display (_tick_ui self now) = lcd
  /\ overlay_display (_tick_ui self now)
     = (if overlay_isVisible self then lcd else overlay_display self).
Proof.
  cbv zeta.
  destruct self as [tm [src svr pr vol cnt] fired last lcd vis olcd btn].
  unfold _tick_ui.
  cbn -[remaining_seconds _format_time Qle_bool qlt inject_Z Qplus].
  set (r := fst (remaining_seconds tm now)).
  set (thr := inject_Z (sound_threshold_seconds (config tm))).
  destruct last as [last|];
    [destruct (qlt (last + (3 # 4)) r)|];
    destruct fired;
    cbn -[remaining_seconds _format_time Qle_bool qlt inject_Z Qplus];
    fold thr;
    try (destruct (qlt thr last && Qle_bool r thr));
    unfold _play_sound_once;
    cbn -[remaining_seconds _format_time Qle_bool qlt inject_Z Qplus];
    destruct src as [[|]|]; destruct pr; destruct svr;
    cbn -[remaining_seconds _format_time Qle_bool qlt inject_Z Qplus];
    rewrite ?format_time_with_volume;
    destruct (_format_time tm r) as [text digits];
    cbn -[remaining_seconds _format_time Qle_bool qlt inject_Z Qplus];
    split; reflexivity.
Qed.

(** X15. What a tick shows is [_format_time] of the remaining time read at
    that instant: the text, the danger colour exactly when the remaining
    time is at or below the threshold, and a digit count that is the one
    [_format_time] returned, although the tick recomputes it from the text
    in the minutes mode; a visible overlay is told the same, a hidden one
    is left alone. *)
Theorem tick_shows_formatted_time (self : MainWindowUi) (now : Q) :
  let r := fst (remaining_seconds (timer_model self) now) in
  let lcd :=
    {| digitCount := snd (_format_time (timer_model self) r);
       shown := fst (_format_time (timer_model self) r);
       danger_colour :=
         Qle_bool r
           (inject_Z (threshold_seconds (config (timer_model self)))) |} in
  timer_display (_tick_ui self now) = lcd
  /\ overlay_display (_tick_ui self now)
     = (if overlay_isVisible self then lcd else overlay_display self).
Proof.
  cbv zeta.
  destruct (tick_display_view self now) as [Hlcd Hover].
  cbv zeta in Hlcd, Hover.
  set (r := fst (remaining_seconds (timer_model self) now)) in *.
  pose proof (FormatProps.format_time_digits_from_text
                (timer_model self) r) as Hdigits.
  rewrite Hdigits in Hlcd, Hover.
  split; [exact Hlcd|exact Hover].
Qed.

End TickProps.

(** ** The volume handlers *)

Module VolumeProps.
Import Timer Win32 Display.

Local Open Scope Q_scope.

Lemma clamp01_cases (v : Q) :
  (v <= 0 /\ clamp01 v = 0)
  \/ (1 <= v /\ clamp01 v = 1)
  \/ (0 < v /\ v < 1 /\ clamp01 v = v).
Proof.
  unfold clamp01, py_min, py_max.
  destruct (qlt v 1) eqn:E1.
  - apply FormatProps.qlt_true in E1.
    destruct (Qle_bool v 0) eqn:E0.
    + apply Qle_bool_iff in E0. now left.
    + right. right.
      assert (H : ~ v <= 0) by (rewrite <- Qle_bool_iff; congruence).
      apply Qnot_le_lt in H. auto.
  - apply FormatProps.qlt_false in E1. right. left. split; [exact E1|].
    reflexivity.
Qed.

Lemma clamp01_idempotent (v : Q) : clamp01 (clamp01 v) = clamp01 v.
Proof.
  destruct (clamp01_cases v) as [[_ ->]|[[_ ->]|[H0 [H1 E]]]];
    [reflexivity|reflexivity|].
  rewrite E. destruct (clamp01_cases v) as [[H _]|[[H _]|[_ [_ E']]]];
    [lra|lra|exact E'].
Qed.

(** X16. [_apply_volume_to_sound] leaves a volume between 0 and 1 in the
    configuration, whatever was stored: a value at or below 0 becomes 0,
    one at or above 1 becomes 1, one in between stays; the sound is given
    that volume unless [setVolume] raises; nothing of the countdown is
    touched; and applying it a second time changes nothing. *)
Theorem apply_volume_clamps (self : MainWindowUi) :
  let v := volume (config (timer_model self)) in
  let self' := _apply_volume_to_sound self in
  let v' := volume (config (timer_model self')) in
  0 <= v' <= 1
  /\ (v <= 0 -> v' = 0)
  /\ (1 <= v -> v' = 1)
  /\ (0 < v -> v < 1 -> v' = v)
  /\ (setVolume_raises (_sound self) = false ->
      sound_volume (_sound self') = v')
  /\ same_countdown (timer_model self) (timer_model self')
  /\ _apply_volume_to_sound self' = self'.
Proof.
  cbv zeta.
  change (volume (config (timer_model (_apply_volume_to_sound self))))
    with (clamp01 (volume (config (timer_model self)))).
  split; [|split; [|split; [|split; [|split; [|split]]]]].
  - destruct (clamp01_cases (volume (config (timer_model self))))
      as [[_ ->]|[[_ ->]|[H0 [H1 ->]]]]; lra.
  - intros H.
    destruct (clamp01_cases (volume (config (timer_model self))))
      as [[_ E]|[[H1 _]|[H0 _]]]; [exact E|lra|lra].
  - intros H.
    destruct (clamp01_cases (volume (config (timer_model self))))
      as [[H0 _]|[[_ E]|[_ [H1 _]]]]; [lra|exact E|lra].
  - intros Ha Hb.
    destruct (clamp01_cases (volume (config (timer_model self))))
      as [[H0 _]|[[H1 _]|[_ [_ E]]]]; [lra|lra|exact E].
  - intros Hs. unfold _apply_volume_to_sound. simpl. now rewrite Hs.
  - repeat split.
  - unfold _apply_volume_to_sound at 1. simpl.
    change (py_max 0 (py_min 1 (py_max 0 (py_min 1
              (volume (config (timer_model self)))))))
      with (clamp01 (clamp01 (volume (config (timer_model self))))).
    rewrite clamp01_idempotent.
    unfold _apply_volume_to_sound, clamp01.
    destruct (setVolume_raises (_sound self)) eqn:Es; simpl;
      rewrite ?Es; reflexivity.
Qed.

(** X17. [_on_volume_changed(value)] accepts any integer: the slider value
    is clamped to 0..100, the button shows that number, and the stored
    volume is that number of hundredths, between 0 and 1, so that the
    clamp of [_apply_volume_to_sound] changes nothing. *)
Theorem on_volume_changed_stores_hundredths
  (self : MainWindowUi) (value : Z) :
  let shown := Z.max 0 (Z.min 100 value) in
  let self' := _on_volume_changed self value in
  let v' := volume (config (timer_model self')) in
  v' == inject_Z shown / 100
  /\ 0 <= v' <= 1
  /\ volume_reset_btn_text self' = py_str shown
  /\ ((0 <= value <= 100)%Z -> v' == inject_Z value / 100)
  /\ (setVolume_raises (_sound self) = false ->
      sound_volume (_sound self') = v').
Proof.
  cbv zeta.
  set (shown := Z.max 0 (Z.min 100 value)).
  assert (Hrange : (0 <= shown <= 100)%Z) by (unfold shown; lia).
  assert (Hv : volume (config (timer_model (_on_volume_changed self value)))
               = clamp01 (inject_Z shown / 100)) by reflexivity.
  assert (Hq : 0 <= inject_Z shown / 100 <= 1).
  { destruct Hrange as [H0 H1].
    rewrite Zle_Qle in H0, H1.
    change (inject_Z 0) with 0 in H0.
    change (inject_Z 100) with 100 in H1.
    split.
    - apply Qle_shift_div_l; [reflexivity|]. lra.
    - apply Qle_shift_div_r; [reflexivity|]. lra. }
  assert (Hc : clamp01 (inject_Z shown / 100) == inject_Z shown / 100).
  { destruct (clamp01_cases (inject_Z shown / 100))
      as [[H0 ->]|[[H1 ->]|[_ [_ ->]]]]; lra. }
  rewrite Hv.
  split; [exact Hc|]. split; [rewrite Hc; exact Hq|].
  split; [reflexivity|]. split.
  - intros Hval. rewrite Hc.
    replace shown with value by (unfold shown; lia). reflexivity.
  - intros Hs. unfold _on_volume_changed, _apply_volume_to_sound. simpl.
    now rewrite Hs.
Qed.

End VolumeProps.

(** ** Window enumeration *)

Module EnumerationProps.
Import Win32 Strings Enumeration.

Lemma compare_same (a : string) : String.compare a a = Eq.
Proof.
  pose proof (String.compare_antisym a a) as H.
  destruct (String.compare a a); [reflexivity|discriminate..].
Qed.

Lemma leb_same (a : string) : String.leb a a = true.
Proof. unfold String.leb. now rewrite compare_same. Qed.

Section Sorting.

Context {A : Type} (key : A -> string).

Lemma insert_by_key_permutation (x : A) (l : list A) :
  Permutation (insert_by_key key x l) (x :: l).
Proof.
  induction l as [|y l IH]; simpl; [reflexivity|].
  destruct (String.leb (key x) (key y)); [reflexivity|].
  rewrite IH. apply perm_swap.
Qed.

Lemma sort_by_key_permutation (l : list A) :
  Permutation (sort_by_key key l) l.
Proof.
  induction l as [|x l IH]; simpl; [reflexivity|].
  rewrite insert_by_key_permutation. now apply perm_skip.
Qed.

Lemma insert_by_key_hd (x y : A) (l : list A) :
  key_le key y x -> HdRel (key_le key) y l ->
  HdRel (key_le key) y (insert_by_key key x l).
Proof.
  intros Hyx Hhd. destruct l as [|z l]; simpl.
  - now constructor.
  - destruct (String.leb (key x) (key z)); constructor; auto.
    now inversion Hhd.
Qed.

Lemma insert_by_key_sorted (x : A) (l : list A) :
  Sorted (key_le key) l -> Sorted (key_le key) (insert_by_key key x l).
Proof.
  induction 1 as [|y l Hs IH Hhd]; simpl.
  - repeat constructor.
  - destruct (String.leb (key x) (key y)) eqn:E.
    + constructor; [now constructor|]. now constructor.
    + constructor; [exact IH|].
      apply insert_by_key_hd; [|exact Hhd].
      destruct (String.leb_total (key x) (key y)) as [H|H];
        [congruence|exact H].
Qed.

Lemma sort_by_key_sorted (l : list A) : Sorted (key_le key) (sort_by_key key l).
Proof.
  induction l as [|x l IH]; simpl; [constructor|].
  now apply insert_by_key_sorted.
Qed.

Lemma insert_by_key_stable (k : string) (x : A) (l : list A) :
  filter (fun y => String.eqb (key y) k) (insert_by_key key x l)
  = filter (fun y => String.eqb (key y) k) (x :: l).
Proof.
  induction l as [|y l IH]; simpl; [reflexivity|].
  destruct (String.leb (key x) (key y)) eqn:E; [reflexivity|].
  simpl. rewrite IH. simpl.
  destruct (String.eqb_spec (key x) k) as [Hx|Hx];
    destruct (String.eqb_spec (key y) k) as [Hy|Hy]; try reflexivity.
  rewrite Hx, Hy, leb_same in E. discriminate.
Qed.

Lemma sort_by_key_stable (k : string) (l : list A) :
  filter (fun y => String.eqb (key y) k) (sort_by_key key l)
  = filter (fun y => String.eqb (key y) k) l.
Proof.
  induction l as [|x l IH]; simpl; [reflexivity|].
  rewrite insert_by_key_stable. simpl. now rewrite IH.
Qed.

End Sorting.

Section WithText.

Variable lower : string -> string.
Variable strip : string -> string.

Lemma is_real_window_true (os : Processes) (h : Z) :
  _is_real_window strip os h = true
  <-> h <> 0
      /\ IsWindowVisible os h = true
      /\ strip (GetWindowText os h) <> EmptyString
      /\ (forall ex : Z,
            GetWindowLong os h GWL_EXSTYLE = Returns ex ->
            Z.land ex WS_EX_TOOLWINDOW = 0).
Proof.
  unfold _is_real_window.
  destruct (Z.eqb_spec h 0) as [Hz|Hnz].
  { split; [discriminate|]. intros [H _]. contradiction. }
  destruct (IsWindowVisible os h); simpl.
  2:{ split; [discriminate|]. intros [_ [H _]]. discriminate. }
  destruct (String.eqb_spec (strip (GetWindowText os h)) EmptyString)
    as [He|Hne].
  { split; [discriminate|]. intros [_ [_ [H _]]]. contradiction. }
  destruct (GetWindowLong os h GWL_EXSTYLE) as [ex|].
  - destruct (Z.eqb_spec (Z.land ex WS_EX_TOOLWINDOW) 0) as [E|E]; simpl.
    + split; [|reflexivity]. intros _.
      repeat split; auto. now intros ex' [= <-].
    + split; [discriminate|]. intros [_ [_ [_ H]]].
      exfalso. apply E. now apply H.
  - split; [|reflexivity]. intros _. repeat split; auto. discriminate.
Qed.

Lemma enumerated_member (os : Processes) (h : Z) (title : string) :
  In (h, title) (enumerated lower strip os)
  <-> In h (EnumWindows os)
      /\ title = GetWindowText os h
      /\ _is_real_window strip os h = true
      /\ _window_allowed lower strip os h title = true.
Proof.
  unfold enumerated. rewrite in_flat_map. split.
  - intros [h' [Hin Hw]].
    destruct (_is_real_window strip os h') eqn:Er; [|destruct Hw].
    destruct (_window_allowed lower strip os h' (GetWindowText os h'))
      eqn:Ea; [|destruct Hw].
    destruct Hw as [[= <- <-]|[]]. auto.
  - intros [Hin [-> [Er Ea]]]. exists h. split; [exact Hin|].
    rewrite Er, Ea. now left.
Qed.

(** X18. A pair (handle, title) is in the result of [list_target_windows]
    exactly when the handle was enumerated, the title is its window text,
    the handle is nonzero, the window is visible, its text is not blank
    after stripping, the extended-style query did not report the tool
    window bit (a raising query rejects nothing), and either the stripped,
    lowercased text contains the marker or the executable of the owning
    process is one of the browsers. *)
Theorem list_target_windows_member
  (os : Processes) (h : Z) (title : string) :
  In (h, title) (list_target_windows lower strip os)
  <-> In h (EnumWindows os)
      /\ title = GetWindowText os h
      /\ h <> 0
      /\ IsWindowVisible os h = true
      /\ strip title <> EmptyString
      /\ (forall ex : Z,
            GetWindowLong os h GWL_EXSTYLE = Returns ex ->
            Z.land ex WS_EX_TOOLWINDOW = 0)
      /\ (contains "2004scape game" (lower (strip title)) = true
          \/ is_browser_exe (_get_exe_name_for_hwnd lower os h) = true).
Proof.
  unfold list_target_windows.
  assert (Hperm : In (h, title)
                    (sort_by_key (fun x => lower (snd x))
                       (enumerated lower strip os))
                  <-> In (h, title) (enumerated lower strip os)).
  { split; apply Permutation_in;
      [|symmetry]; apply sort_by_key_permutation. }
  rewrite Hperm, enumerated_member, is_real_window_true.
  unfold _window_allowed.
  split.
  - intros [Hin [-> [[Hnz [Hv [Hs Ht]]] Ha]]].
    repeat split; auto.
    destruct (contains "2004scape game" _); auto.
  - intros [Hin [-> [Hnz [Hv [Hs [Ht Ha]]]]]].
    repeat split; auto.
    destruct (contains "2004scape game" _); [reflexivity|].
    destruct Ha as [Ha|Ha]; [discriminate|exact Ha].
Qed.

(** X19. [list_target_windows] returns the accepted windows, each as often
    as it was enumerated, in ascending order of the lowercased title, and
    windows with the same lowercased title keep their enumeration order. *)
Theorem list_target_windows_sorted (os : Processes) :
  let key := fun x : Z * string => lower (snd x) in
  Permutation (list_target_windows lower strip os)
    (enumerated lower strip os)
  /\ Sorted (key_le key) (list_target_windows lower strip os)
  /\ forall k : string,
       filter (fun w => String.eqb (key w) k)
         (list_target_windows lower strip os)
       = filter (fun w => String.eqb (key w) k)
           (enumerated lower strip os).
Proof.
  cbv zeta. unfold list_target_windows.
  split; [apply sort_by_key_permutation|].
  split; [apply sort_by_key_sorted|].
  intros k. apply sort_by_key_stable.
Qed.

Lemma listed_handles_nonzero (os : Processes) :
  ~ In 0 (map fst (list_target_windows lower strip os)).
Proof.
  intros Hin. apply in_map_iff in Hin as [[h title] [Hh Hin]].
  simpl in Hh. subst h.
  assert (Hen : In (0, title) (enumerated lower strip os)).
  { revert Hin. apply Permutation_in. apply sort_by_key_permutation. }
  apply enumerated_member in Hen as [_ [_ [Hreal _]]].
  apply is_real_window_true in Hreal as [Hnz _]. contradiction.
Qed.

(** X20. A refresh over the enumeration: after [_refresh_windows] has run
    on what [list_target_windows] returns, the target is zero exactly when
    no window was listed, and a nonzero target is the handle of a listed
    window, hence of a visible window that was enumerated. *)
Theorem refresh_over_enumeration_targets_listed_window
  (os : Processes) (self : Selection.MainWindow) (now : Q) :
  let windows := list_target_windows lower strip os in
  let target :=
    Selection.resolved_target
      (Selection._refresh_windows lower self now windows) in
  (target = 0 <-> windows = [])
  /\ (target <> 0 ->
      In target (EnumWindows os)
      /\ IsWindowVisible os target = true
      /\ In (target, GetWindowText os target) windows).
Proof.
  cbv zeta.
  destruct (SelectionOrder.refresh_outcome lower self now
              (list_target_windows lower strip os))
    as [_ [_ [Hempty Hlisted]]].
  pose proof (listed_handles_nonzero os) as Hnz.
  assert (Hin : list_target_windows lower strip os <> [] ->
                exists title : string,
                  In (Selection.resolved_target
                        (Selection._refresh_windows lower self now
                           (list_target_windows lower strip os)), title)
                    (list_target_windows lower strip os)).
  { intros Hne. specialize (Hlisted Hne).
    apply in_map_iff in Hlisted as [[h title] [Hh Hin]].
    simpl in Hh. subst h. now exists title. }
  split.
  - split; [|exact Hempty].
    intros Hz.
    destruct (list_target_windows lower strip os) as [|w ws] eqn:E;
      [reflexivity|].
    exfalso. apply Hnz. rewrite <- Hz. apply Hlisted. discriminate.
  - intros Htarget.
    assert (Hne : list_target_windows lower strip os <> [])
      by (intros E; apply Htarget; now apply Hempty).
    destruct (Hin Hne) as [title Hmem].
    pose proof Hmem as Hmem'.
    unfold list_target_windows in Hmem'.
    apply (Permutation_in _ (sort_by_key_permutation _ _)) in Hmem'.
    apply enumerated_member in Hmem' as [He [Ht [Hreal _]]].
    apply is_real_window_true in Hreal as [_ [Hv _]].
    split; [exact He|]. split; [exact Hv|].
    rewrite Ht in Hmem. exact Hmem.
Qed.

End WithText.

(** The sample enumeration: the game and the two browsers are listed,
    sorted by lowercased title (the leading blank of window 6 first). *)
Example sample_listing :
  list_target_windows ascii_lower MoreExamples.ascii_strip
    MoreExamples.sample_processes
  = [ (6, " Inbox - Mozilla Firefox "%string);
      (1, "2004Scape Game"%string);
      (2, "New Tab - Google Chrome"%string) ].
Proof. vm_compute. reflexivity. Qed.

Example sample_exe_names :
  map (_get_exe_name_for_hwnd ascii_lower MoreExamples.sample_processes)
    [1; 2; 6; 9]
  = ["client.exe"; "chrome.exe"; "firefox.exe"; ""]%string.
Proof. vm_compute. reflexivity. Qed.

End EnumerationProps.

(** ** The saved window hint *)

Module PersistenceProps.
Import Strings Selection Persistence.

Lemma append_assoc (a b c : string) :
  ((a ++ b) ++ c = a ++ (b ++ c))%string.
Proof. induction a as [|x a IH]; simpl; congruence. Qed.

Lemma prefix_split (a b : string) :
  prefix a b = true <-> exists s : string, b = (a ++ s)%string.
Proof.
  revert b. induction a as [|x a IH]; intros b.
  - split; [intros _; now exists b|intros _; now destruct b].
  - destruct b as [|y b]; simpl.
    + split; [discriminate|]. intros [s Hs]. discriminate.
    + destruct (ascii_dec x y) as [->|Hne].
      * rewrite IH. split; intros [s Hs]; exists s; congruence.
      * split; [discriminate|]. intros [s [= Hxy _]]. congruence.
Qed.

Lemma contains_unfold (a b : string) :
  contains a b
  = if prefix a b then true
    else
      match b with
      | EmptyString => false
      | String _ rest => contains a rest
      end.
Proof. destruct b; reflexivity. Qed.

Lemma contains_split (a b : string) :
  contains a b = true
  <-> exists p s : string, b = (p ++ a ++ s)%string.
Proof.
  induction b as [|y b IH]; rewrite contains_unfold.
  - destruct (prefix a EmptyString) eqn:E.
    + split; [|reflexivity]. intros _.
      apply prefix_split in E as [s Hs]. now exists EmptyString, s.
    + split; [discriminate|]. intros [p [s Hs]].
      destruct p; [|discriminate]. simpl in Hs.
      assert (prefix a EmptyString = true)
        by (apply prefix_split; now exists s).
      congruence.
  - destruct (prefix a (String y b)) eqn:E.
    + split; [|reflexivity]. intros _.
      apply prefix_split in E as [s Hs]. now exists EmptyString, s.
    + rewrite IH. split.
      * intros [p [s Hs]]. exists (String y p), s. simpl. congruence.
      * intros [p [s Hs]]. destruct p as [|x p].
        -- simpl in Hs.
           assert (prefix a (String y b) = true)
             by (apply prefix_split; now exists s).
           congruence.
        -- injection Hs as _ Hs. now exists p, s.
Qed.

Lemma contains_trans (a b c : string) :
  contains a b = true -> contains b c = true -> contains a c = true.
Proof.
  rewrite !contains_split.
  intros [p [s ->]] [p' [s' ->]].
  exists (p' ++ p)%string, (s ++ s')%string.
  now rewrite !append_assoc.
Qed.

Section WithText.

Variable lower : string -> string.
Variable strip : string -> string.

(** X22. The hint saved for the selected window finds that window again:
    for a window text on which lowercasing is stable (lowercasing the
    lowercased, stripped text and the marker changes nothing) and
    stripping only removes an outer part (the lowercased stripped text
    occurs in the lowercased text), the hint set at the next start from
    what was saved is the marker for a native game window and the
    lowercased stripped text otherwise, and in both cases it occurs in the
    lowercased text of that window. *)
Theorem saved_hint_matches_its_window (currentText : string) :
  lower (lower (strip currentText)) = lower (strip currentText) ->
  lower MARKER = MARKER ->
  contains (lower (strip currentText)) (lower currentText) = true ->
  let hint :=
    loaded_hint lower (Some (saved_hint lower strip currentText)) in
  contains hint (lower currentText) = true
  /\ (native_game_title (lower (strip currentText)) = true ->
      hint = MARKER)
  /\ (native_game_title (lower (strip currentText)) = false ->
      hint = lower (strip currentText)).
Proof.
  intros Hstable Hmarker Hinner. cbv zeta.
  unfold loaded_hint, saved_hint.
  fold (native_game_title (lower (strip currentText))).
  destruct (native_game_title (lower (strip currentText))) eqn:En.
  - rewrite Hmarker. split; [|split; [reflexivity|discriminate]].
    apply contains_trans with (lower (strip currentText)); [|exact Hinner].
    unfold native_game_title in En. now apply andb_prop in En as [En _].
  - rewrite Hstable. split; [exact Hinner|].
    split; [discriminate|reflexivity].
Qed.

End WithText.

(** A browser tab, its text padded with blanks. *)
Lemma saved_hint_matches_its_window_witness :
  let hint :=
    loaded_hint ascii_lower
      (Some (saved_hint ascii_lower MoreExamples.ascii_strip
               " Old School Wiki - Google Chrome ")) in
  contains hint (ascii_lower " Old School Wiki - Google Chrome ") = true
  /\ (native_game_title
        (ascii_lower
           (MoreExamples.ascii_strip " Old School Wiki - Google Chrome "))
      = true -> hint = MARKER)
  /\ (native_game_title
        (ascii_lower
           (MoreExamples.ascii_strip " Old School Wiki - Google Chrome "))
      = false ->
      hint
      = ascii_lower
          (MoreExamples.ascii_strip " Old School Wiki - Google Chrome ")).
Proof.
  apply (saved_hint_matches_its_window ascii_lower MoreExamples.ascii_strip
           " Old School Wiki - Google Chrome ").
  - reflexivity.
  - reflexivity.
  - reflexivity.
Defined.

End PersistenceProps.
